(** * The state store of torrent-bot: [src/data/database.py]

    A shallow embedding of [TBDatabase], the sqlite3-backed store of movies,
    tv shows and tv show seasons, and the properties of its access contract.

    What is embedded, and how:
    - a Python argument is a [value]: [None], an [int] or a [str]
      (floats, bytes and other objects are not embedded; an [int] is taken
      inside SQLite's 64-bit range);
    - a table is the list of its rows in rowid order, a row is a record with
      the columns of the [CREATE TABLE] statement of [create_schema];
      every table carries its [sqlite_sequence] counter ([AUTOINCREMENT]);
    - the statements the methods pass to [cur.execute] are the constructors
      of [statement], [run_statement] gives each its SQLite meaning, and
      the connection records every statement it executes and every commit
      in a trace, so that "fails before any statement is issued" can be said;
    - rows come back through [dict_factory], as dictionaries ([gmap]) from
      column name to value; [get_season_states] returns a Python set
      ([gset]);
    - a method is a function in the [Conn] monad: it threads the connection
      and ends in [Returns], [Raises] (a Python exception) or [Unsupported].
      [Unsupported] marks what is left outside the embedding: a [str]
      stored in, or compared with, a column of INTEGER affinity (SQLite
      then parses the text as a number), and an UPDATE whose SET list names
      a column the update methods never name.
    - the connection's [row_factory] is [dict_factory] from [__init__] on and
      every method that assigns it assigns [dict_factory] again, so it is not
      part of the state; the connection is open and [create_schema] has run. *)

From Stdlib Require Import ZArith String List Bool Lia.
From Stdlib Require Import DecimalString.
From stdpp Require Import base decidable countable gmap strings list.

Open Scope Z_scope.
Open Scope string_scope.
Open Scope list_scope.

(** ** Values, exceptions, outcomes *)

Inductive value : Type :=
| VNull
| VInt (n : Z)
| VText (s : string).

#[global] Instance value_eq_dec : EqDecision value.
Proof. solve_decision. Defined.

Definition value_encode (v : value) : unit + (Z + string) :=
  match v with
  | VNull => inl tt
  | VInt n => inr (inl n)
  | VText s => inr (inr s)
  end.

Definition value_decode (x : unit + (Z + string)) : value :=
  match x with
  | inl _ => VNull
  | inr (inl n) => VInt n
  | inr (inr s) => VText s
  end.

#[global] Instance value_countable : Countable value.
Proof. by apply (inj_countable' value_encode value_decode); intros []. Defined.

(** The constraint an [sqlite3.IntegrityError] reports. *)
Inductive constraint_failure : Type :=
| NotNullFailed (table column : string)
| UniqueFailed (table : string) (columns : list string).

Inductive exn : Type :=
| Exception (msg : string)                  (* [raise Exception(...)] of this file *)
| IntegrityError (c : constraint_failure)   (* [sqlite3.IntegrityError] *)
| KeyError (key : string).                  (* a missing dictionary key *)

Inductive outcome (A : Type) : Type :=
| Returns (a : A)
| Raises (e : exn)
| Unsupported.

Arguments Returns {A} a.
Arguments Raises {A} e.
Arguments Unsupported {A}.

Definition outcome_bind {A B : Type} (m : outcome A) (k : A -> outcome B) : outcome B :=
  match m with
  | Returns a => k a
  | Raises e => Raises e
  | Unsupported => Unsupported
  end.

#[global] Instance outcome_ret : MRet outcome := @Returns.
#[global] Instance outcome_mbind : MBind outcome := fun A B k m => outcome_bind m k.

(** [str(v)], as an f-string renders an argument. *)
Definition py_str (v : value) : string :=
  match v with
  | VNull => "None"
  | VInt n => NilZero.string_of_int (Z.to_int n)
  | VText s => s
  end.

(** [repr] of a list of plain identifiers, as an f-string renders the
    column lists: ['a', 'b']. *)
Fixpoint py_repr_items (l : list string) : string :=
  match l with
  | [] => ""
  | [x] => "'" +:+ x +:+ "'"
  | x :: rest => "'" +:+ x +:+ "', " +:+ py_repr_items rest
  end.

Definition py_repr_list (l : list string) : string := "[" +:+ py_repr_items l +:+ "]".

(** [key in text]: the substring test. *)
Definition mentions (text key : string) : bool :=
  match String.index 0 key text with
  | Some _ => true
  | None => false
  end.

(** ** [TorrentState] *)

Module TorrentState.
Definition SEARCHING := "SEARCHING".
Definition DOWNLOADING := "DOWNLOADING".
Definition SEEDING := "SEEDING".
Definition COMPLETED := "COMPLETED".
Definition DELETING := "DELETING".
Definition PAUSED := "PAUSED".

Definition get_states : list string :=
  [SEARCHING; DOWNLOADING; SEEDING; COMPLETED; DELETING; PAUSED].
End TorrentState.

(** [state in self.states.get_states()]: only a [str] equals a [str]. *)
Definition py_in (v : value) (l : list string) : bool :=
  match v with
  | VText s => bool_decide (s ∈ l)
  | _ => false
  end.

(** ** The schema of [create_schema] *)

Module Movie.
Record t : Type := Build {
  id : Z;
  name : string;
  max_size_mb : Z;
  resolution_profile : string;
  state : string;
  hash : option string
}.
End Movie.

Module TvShow.
Record t : Type := Build {
  id : Z;
  name : string;
  max_episode_size_mb : Z;
  resolution_profile : string;
  state : string
}.
End TvShow.

Module Season.
Record t : Type := Build {
  id : Z;
  show_id : option Z;
  season_number : Z;
  season_number_episodes : Z;
  state : string;
  hash : option string
}.
End Season.

#[global] Instance movie_eq_dec : EqDecision Movie.t.
Proof. solve_decision. Defined.
#[global] Instance tv_show_eq_dec : EqDecision TvShow.t.
Proof. solve_decision. Defined.
#[global] Instance season_eq_dec : EqDecision Season.t.
Proof. solve_decision. Defined.

Record database : Type := Database {
  movies : list Movie.t;
  movies_seq : Z;
  tv_shows : list TvShow.t;
  tv_shows_seq : Z;
  tv_show_seasons : list Season.t;
  tv_show_seasons_seq : Z
}.

Definition empty_database : database := Database [] 0 [] 0 [] 0.

(** ** Storage classes and constraints

    A value bound to a column takes the column's affinity before it is
    stored or compared.  TEXT affinity turns a number into its decimal text
    (the digits [str] prints); INTEGER affinity keeps a number and would
    parse a text, which is where the embedding stops. *)

Definition text_affinity (v : value) : option string :=
  match v with
  | VNull => None
  | VInt n => Some (py_str (VInt n))
  | VText s => Some s
  end.

Definition integer_affinity (v : value) : outcome (option Z) :=
  match v with
  | VNull => Returns None
  | VInt n => Returns (Some n)
  | VText _ => Unsupported
  end.

Definition not_null {A : Type} (table column : string) (o : option A) : outcome A :=
  match o with
  | Some a => Returns a
  | None => Raises (IntegrityError (NotNullFailed table column))
  end.

Definition text_value (o : option string) : value :=
  match o with
  | Some s => VText s
  | None => VNull
  end.

Definition integer_value (o : option Z) : value :=
  match o with
  | Some n => VInt n
  | None => VNull
  end.

(** [column = ?] for an INTEGER column and a bound key: NULL equals nothing. *)
Definition integer_matches (key : option Z) (column : Z) : bool :=
  match key with
  | Some k => bool_decide (column = k)
  | None => false
  end.

(** [column = ?] for a TEXT column. *)
Definition text_matches (key : option string) (column : string) : bool :=
  match key with
  | Some k => bool_decide (column = k)
  | None => false
  end.

(** [AUTOINCREMENT]: one more than the largest rowid the table holds or has
    ever held. *)
Definition max_rowid (ids : list Z) : Z := foldr Z.max 0 ids.

Definition next_rowid (seq : Z) (ids : list Z) : Z := Z.max seq (max_rowid ids) + 1.

(** The value a column has after [SET c1=?, c2=?, ...]: the assignments are
    taken left to right over the old value. *)
Fixpoint assigned (set : list (string * value)) (column : string) (old : value) : value :=
  match set with
  | [] => old
  | (c, v) :: rest => assigned rest column (if bool_decide (c = column) then v else old)
  end.

(** [UPDATE ... WHERE]: the matching rows are changed in place, in rowid
    order; the first failure aborts the statement. *)
Fixpoint update_where {R : Type} (matches : R -> bool) (change : R -> outcome R)
    (rows : list R) : outcome (list R) :=
  match rows with
  | [] => Returns []
  | r :: rest =>
      if matches r then
        r' ← change r;
        rest' ← update_where matches change rest;
        Returns (r' :: rest')
      else
        rest' ← update_where matches change rest;
        Returns (r :: rest')
  end.

(** [DELETE ... WHERE]. *)
Definition delete_where {R : Type} (matches : R -> bool) (rows : list R) : list R :=
  List.filter (fun r => negb (matches r)) rows.

(** *** movies *)

Definition movies_description : list string :=
  ["id"; "name"; "max_size_mb"; "resolution_profile"; "state"; "hash"].

Definition movie_tuple (m : Movie.t) : list value :=
  [VInt (Movie.id m); VText (Movie.name m); VInt (Movie.max_size_mb m);
   VText (Movie.resolution_profile m); VText (Movie.state m); text_value (Movie.hash m)].

(** A row of [movies] as the table accepts it: affinities, then NOT NULL in
    column order. *)
Definition store_movie (id : Z) (name max_size_mb resolution_profile state hash : value)
    : outcome Movie.t :=
  name ← not_null "movies" "name" (text_affinity name);
  max_size_mb ← integer_affinity max_size_mb ≫= not_null "movies" "max_size_mb";
  resolution_profile ← not_null "movies" "resolution_profile" (text_affinity resolution_profile);
  state ← not_null "movies" "state" (text_affinity state);
  Returns (Movie.Build id name max_size_mb resolution_profile state (text_affinity hash)).

(** [name UNIQUE]: another row already has the name. *)
Definition movie_name_taken (rows : list Movie.t) (rowid : Z) (name : string) : bool :=
  existsb (fun m => negb (bool_decide (Movie.id m = rowid)) && bool_decide (Movie.name m = name)) rows.

Definition unique_movie (rows : list Movie.t) (m : Movie.t) : outcome Movie.t :=
  if movie_name_taken rows (Movie.id m) (Movie.name m)
  then Raises (IntegrityError (UniqueFailed "movies" ["name"]))
  else Returns m.

Definition insert_movie (db : database) (name max_size_mb resolution_profile : value)
    : outcome database :=
  let id := next_rowid (movies_seq db) (Movie.id <$> movies db) in
  m ← store_movie id name max_size_mb resolution_profile (VText TorrentState.SEARCHING) VNull;
  m ← unique_movie (movies db) m;
  Returns (Database (movies db ++ [m]) id
                    (tv_shows db) (tv_shows_seq db)
                    (tv_show_seasons db) (tv_show_seasons_seq db)).

Definition movies_settable : list string :=
  ["name"; "max_size_mb"; "resolution_profile"; "state"; "hash"].

Definition set_movie (set : list (string * value)) (m : Movie.t) : outcome Movie.t :=
  store_movie (Movie.id m)
    (assigned set "name" (VText (Movie.name m)))
    (assigned set "max_size_mb" (VInt (Movie.max_size_mb m)))
    (assigned set "resolution_profile" (VText (Movie.resolution_profile m)))
    (assigned set "state" (VText (Movie.state m)))
    (assigned set "hash" (text_value (Movie.hash m))).

Definition update_movies (db : database) (set : list (string * value)) (key : option Z)
    : outcome database :=
  rows ← update_where (fun m => integer_matches key (Movie.id m))
                      (fun m => set_movie set m ≫= unique_movie (movies db))
                      (movies db);
  Returns (Database rows (movies_seq db)
                    (tv_shows db) (tv_shows_seq db)
                    (tv_show_seasons db) (tv_show_seasons_seq db)).

Definition delete_movies (db : database) (key : option Z) : database :=
  Database (delete_where (fun m => integer_matches key (Movie.id m)) (movies db)) (movies_seq db)
           (tv_shows db) (tv_shows_seq db)
           (tv_show_seasons db) (tv_show_seasons_seq db).

(** *** tv_shows *)

Definition tv_shows_description : list string :=
  ["id"; "name"; "max_episode_size_mb"; "resolution_profile"; "state"].

Definition tv_show_tuple (s : TvShow.t) : list value :=
  [VInt (TvShow.id s); VText (TvShow.name s); VInt (TvShow.max_episode_size_mb s);
   VText (TvShow.resolution_profile s); VText (TvShow.state s)].

Definition store_tv_show (id : Z) (name max_episode_size_mb resolution_profile state : value)
    : outcome TvShow.t :=
  name ← not_null "tv_shows" "name" (text_affinity name);
  max_episode_size_mb ←
    integer_affinity max_episode_size_mb ≫= not_null "tv_shows" "max_episode_size_mb";
  resolution_profile ← not_null "tv_shows" "resolution_profile" (text_affinity resolution_profile);
  state ← not_null "tv_shows" "state" (text_affinity state);
  Returns (TvShow.Build id name max_episode_size_mb resolution_profile state).

Definition tv_show_name_taken (rows : list TvShow.t) (rowid : Z) (name : string) : bool :=
  existsb (fun s => negb (bool_decide (TvShow.id s = rowid)) && bool_decide (TvShow.name s = name)) rows.

Definition unique_tv_show (rows : list TvShow.t) (s : TvShow.t) : outcome TvShow.t :=
  if tv_show_name_taken rows (TvShow.id s) (TvShow.name s)
  then Raises (IntegrityError (UniqueFailed "tv_shows" ["name"]))
  else Returns s.

Definition insert_tv_show (db : database) (name max_episode_size_mb resolution_profile : value)
    : outcome database :=
  let id := next_rowid (tv_shows_seq db) (TvShow.id <$> tv_shows db) in
  s ← store_tv_show id name max_episode_size_mb resolution_profile
                    (VText TorrentState.SEARCHING);
  s ← unique_tv_show (tv_shows db) s;
  Returns (Database (movies db) (movies_seq db)
                    (tv_shows db ++ [s]) id
                    (tv_show_seasons db) (tv_show_seasons_seq db)).

Definition tv_shows_settable : list string :=
  ["name"; "max_episode_size_mb"; "resolution_profile"; "state"].

Definition set_tv_show (set : list (string * value)) (s : TvShow.t) : outcome TvShow.t :=
  store_tv_show (TvShow.id s)
    (assigned set "name" (VText (TvShow.name s)))
    (assigned set "max_episode_size_mb" (VInt (TvShow.max_episode_size_mb s)))
    (assigned set "resolution_profile" (VText (TvShow.resolution_profile s)))
    (assigned set "state" (VText (TvShow.state s))).

Definition update_tv_shows (db : database) (set : list (string * value)) (key : option Z)
    : outcome database :=
  rows ← update_where (fun s => integer_matches key (TvShow.id s))
                      (fun s => set_tv_show set s ≫= unique_tv_show (tv_shows db))
                      (tv_shows db);
  Returns (Database (movies db) (movies_seq db)
                    rows (tv_shows_seq db)
                    (tv_show_seasons db) (tv_show_seasons_seq db)).

Definition delete_tv_shows (db : database) (key : option Z) : database :=
  Database (movies db) (movies_seq db)
           (delete_where (fun s => integer_matches key (TvShow.id s)) (tv_shows db)) (tv_shows_seq db)
           (tv_show_seasons db) (tv_show_seasons_seq db).

(** *** tv_show_seasons

    [show_id] is the only column without NOT NULL.  Its FOREIGN KEY clause is
    declared, but SQLite enforces foreign keys only on a connection that has
    switched them on, which [__init__] never does: no statement looks at
    [tv_shows] when a season is written. *)

Definition store_season (id : Z) (show_id season_number season_number_episodes state hash : value)
    : outcome Season.t :=
  show_id ← integer_affinity show_id;
  season_number ←
    integer_affinity season_number ≫= not_null "tv_show_seasons" "season_number";
  season_number_episodes ←
    integer_affinity season_number_episodes
      ≫= not_null "tv_show_seasons" "season_number_episodes";
  state ← not_null "tv_show_seasons" "state" (text_affinity state);
  Returns (Season.Build id show_id season_number season_number_episodes state
                        (text_affinity hash)).

(** [UNIQUE(show_id, season_number)]: another row has the same pair.  A NULL
    [show_id] is distinct from every value, NULL included. *)
Definition season_pair_taken (rows : list Season.t) (rowid : Z)
    (show_id : option Z) (season_number : Z) : bool :=
  match show_id with
  | None => false
  | Some sid =>
      existsb (fun e => negb (bool_decide (Season.id e = rowid))
                        && bool_decide (Season.show_id e = Some sid)
                        && bool_decide (Season.season_number e = season_number)) rows
  end.

Definition unique_season (rows : list Season.t) (e : Season.t) : outcome Season.t :=
  if season_pair_taken rows (Season.id e) (Season.show_id e) (Season.season_number e)
  then Raises (IntegrityError (UniqueFailed "tv_show_seasons" ["show_id"; "season_number"]))
  else Returns e.

Definition insert_season (db : database) (show_id season_number season_number_episodes : value)
    : outcome database :=
  let id := next_rowid (tv_show_seasons_seq db) (Season.id <$> tv_show_seasons db) in
  e ← store_season id show_id season_number season_number_episodes
                   (VText TorrentState.SEARCHING) VNull;
  e ← unique_season (tv_show_seasons db) e;
  Returns (Database (movies db) (movies_seq db)
                    (tv_shows db) (tv_shows_seq db)
                    (tv_show_seasons db ++ [e]) id).

Definition tv_show_seasons_settable : list string :=
  ["season_number"; "season_number_episodes"; "state"; "hash"].

Definition set_season (set : list (string * value)) (e : Season.t) : outcome Season.t :=
  store_season (Season.id e)
    (integer_value (Season.show_id e))
    (assigned set "season_number" (VInt (Season.season_number e)))
    (assigned set "season_number_episodes" (VInt (Season.season_number_episodes e)))
    (assigned set "state" (VText (Season.state e)))
    (assigned set "hash" (text_value (Season.hash e))).

Definition update_seasons (db : database) (set : list (string * value)) (key : option Z)
    : outcome database :=
  rows ← update_where (fun e => integer_matches key (Season.id e))
                      (fun e => set_season set e ≫= unique_season (tv_show_seasons db))
                      (tv_show_seasons db);
  Returns (Database (movies db) (movies_seq db)
                    (tv_shows db) (tv_shows_seq db)
                    rows (tv_show_seasons_seq db)).

Definition delete_seasons (db : database) (key : option Z) : database :=
  Database (movies db) (movies_seq db)
           (tv_shows db) (tv_shows_seq db)
           (delete_where (fun e => integer_matches key (Season.id e)) (tv_show_seasons db))
           (tv_show_seasons_seq db).

(** *** tv_shows_with_seasons_view

    [tv_shows INNER JOIN tv_show_seasons ON tv_shows.id = tv_show_seasons.show_id],
    as a nested loop in the order of the FROM clause.  SQL leaves the order of
    the rows open; the properties below do not depend on it. *)

Definition view_description : list string :=
  ["show_id"; "show_name"; "show_state"; "season_id"; "season_number";
   "season_number_episodes"; "season_state"; "season_hash"].

Definition view_tuple (s : TvShow.t) (e : Season.t) : list value :=
  [VInt (TvShow.id s); VText (TvShow.name s); VText (TvShow.state s);
   VInt (Season.id e); VInt (Season.season_number e);
   VInt (Season.season_number_episodes e); VText (Season.state e);
   text_value (Season.hash e)].

Definition joined (s : TvShow.t) (e : Season.t) : bool :=
  bool_decide (Season.show_id e = Some (TvShow.id s)).

Definition tv_shows_with_seasons_view (db : database) : list (TvShow.t * Season.t) :=
  s ← tv_shows db; e ← List.filter (joined s) (tv_show_seasons db); [(s, e)].

(** ** Statements and cursors *)

Inductive statement : Type :=
| SELECT_movies
| SELECT_movies_WHERE_state (state : value)
| SELECT_movies_WHERE_id (id : value)
| SELECT_tv_shows
| SELECT_tv_shows_WHERE_state (state : value)
| SELECT_tv_shows_WHERE_id (id : value)
| SELECT_view
| SELECT_view_WHERE_show_id (id : value)
| SELECT_season_state_FROM_view_WHERE_show_id (show_id : value)
| DELETE_movies_WHERE_id (id : value)
| DELETE_tv_shows_WHERE_id (id : value)
| DELETE_tv_show_seasons_WHERE_id (id : value)
| INSERT_movies (name max_size_mb resolution_profile : value)
| INSERT_tv_shows (name max_episode_size_mb resolution_profile : value)
| INSERT_tv_show_seasons (show_id season_number season_number_episodes : value)
| UPDATE_movies_WHERE_id (set : list (string * value)) (id : value)
| UPDATE_tv_shows_WHERE_id (set : list (string * value)) (id : value)
| UPDATE_tv_show_seasons_WHERE_id (set : list (string * value)) (id : value).

(** What a cursor holds after [execute]: [description] and the tuples. *)
Record cursor : Type := Cursor {
  description : list string;
  tuples : list (list value)
}.

Definition no_rows : cursor := Cursor [] [].

(** A SET list names settable columns only (the methods build no other). *)
Definition settable (columns : list string) (set : list (string * value)) : bool :=
  forallb (fun cv => bool_decide (cv.1 ∈ columns)) set.

Definition run_statement (stmt : statement) (db : database) : outcome (database * cursor) :=
  match stmt with
  | SELECT_movies =>
      Returns (db, Cursor movies_description (movie_tuple <$> movies db))
  | SELECT_movies_WHERE_state state =>
      Returns (db, Cursor movies_description
        (movie_tuple <$> List.filter (fun m => text_matches (text_affinity state) (Movie.state m))
                                     (movies db)))
  | SELECT_movies_WHERE_id id =>
      key ← integer_affinity id;
      Returns (db, Cursor movies_description
        (movie_tuple <$> List.filter (fun m => integer_matches key (Movie.id m)) (movies db)))
  | SELECT_tv_shows =>
      Returns (db, Cursor tv_shows_description (tv_show_tuple <$> tv_shows db))
  | SELECT_tv_shows_WHERE_state state =>
      Returns (db, Cursor tv_shows_description
        (tv_show_tuple <$> List.filter (fun s => text_matches (text_affinity state) (TvShow.state s))
                                       (tv_shows db)))
  | SELECT_tv_shows_WHERE_id id =>
      key ← integer_affinity id;
      Returns (db, Cursor tv_shows_description
        (tv_show_tuple <$> List.filter (fun s => integer_matches key (TvShow.id s)) (tv_shows db)))
  | SELECT_view =>
      Returns (db, Cursor view_description
        ((fun se => view_tuple se.1 se.2) <$> tv_shows_with_seasons_view db))
  | SELECT_view_WHERE_show_id id =>
      key ← integer_affinity id;
      Returns (db, Cursor view_description
        ((fun se => view_tuple se.1 se.2)
           <$> List.filter (fun se => integer_matches key (TvShow.id se.1))
                           (tv_shows_with_seasons_view db)))
  | SELECT_season_state_FROM_view_WHERE_show_id show_id =>
      key ← integer_affinity show_id;
      Returns (db, Cursor ["season_state"]
        ((fun se => [VText (Season.state se.2)])
           <$> List.filter (fun se => integer_matches key (TvShow.id se.1))
                           (tv_shows_with_seasons_view db)))
  | DELETE_movies_WHERE_id id =>
      key ← integer_affinity id; Returns (delete_movies db key, no_rows)
  | DELETE_tv_shows_WHERE_id id =>
      key ← integer_affinity id; Returns (delete_tv_shows db key, no_rows)
  | DELETE_tv_show_seasons_WHERE_id id =>
      key ← integer_affinity id; Returns (delete_seasons db key, no_rows)
  | INSERT_movies name max_size_mb resolution_profile =>
      db' ← insert_movie db name max_size_mb resolution_profile; Returns (db', no_rows)
  | INSERT_tv_shows name max_episode_size_mb resolution_profile =>
      db' ← insert_tv_show db name max_episode_size_mb resolution_profile; Returns (db', no_rows)
  | INSERT_tv_show_seasons show_id season_number season_number_episodes =>
      db' ← insert_season db show_id season_number season_number_episodes; Returns (db', no_rows)
  | UPDATE_movies_WHERE_id set id =>
      if settable movies_settable set then
        key ← integer_affinity id; db' ← update_movies db set key; Returns (db', no_rows)
      else Unsupported
  | UPDATE_tv_shows_WHERE_id set id =>
      if settable tv_shows_settable set then
        key ← integer_affinity id; db' ← update_tv_shows db set key; Returns (db', no_rows)
      else Unsupported
  | UPDATE_tv_show_seasons_WHERE_id set id =>
      if settable tv_show_seasons_settable set then
        key ← integer_affinity id; db' ← update_seasons db set key; Returns (db', no_rows)
      else Unsupported
  end.

(** ** The connection *)

Inductive event : Type :=
| Executed (stmt : statement)
| Committed.

Record connection : Type := Connection {
  store : database;
  trace : list event
}.

(** A method body: it runs on the connection and leaves it changed or not. *)
Definition Conn (A : Type) : Type := connection -> connection * outcome A.

Definition conn_ret {A : Type} (a : A) : Conn A := fun c => (c, Returns a).

Definition conn_bind {A B : Type} (m : Conn A) (k : A -> Conn B) : Conn B :=
  fun c =>
    match m c with
    | (c', Returns a) => k a c'
    | (c', Raises e) => (c', Raises e)
    | (c', Unsupported) => (c', Unsupported)
    end.

#[global] Instance conn_mret : MRet Conn := @conn_ret.
#[global] Instance conn_mbind : MBind Conn := fun A B k m => conn_bind m k.

Definition raise {A : Type} (e : exn) : Conn A := fun c => (c, Raises e).

(** A step of plain Python inside a method. *)
Definition python {A : Type} (o : outcome A) : Conn A := fun c => (c, o).

(** [cur.execute(sql, parameters)].  A statement that fails changes nothing
    in the store (SQLite rolls the statement back). *)
Definition execute (stmt : statement) : Conn cursor :=
  fun c =>
    let t := (trace c ++ [Executed stmt]) in
    match run_statement stmt (store c) with
    | Returns (db, cur) => (Connection db t, Returns cur)
    | Raises e => (Connection (store c) t, Raises e)
    | Unsupported => (Connection (store c) t, Unsupported)
    end.

(** [self.connection.commit()]. *)
Definition commit : Conn unit :=
  fun c => (Connection (store c) (trace c ++ [Committed]), Returns tt).

(** ** [dict_factory] and fetching *)

Fixpoint dict_factory_loop (output : gmap string value) (description : list string)
    (row : list value) : gmap string value :=
  match description, row with
  | col :: description', v :: row' => dict_factory_loop (<[col := v]> output) description' row'
  | _, _ => output
  end.

Definition dict_factory (description : list string) (row : list value) : gmap string value :=
  dict_factory_loop ∅ description row.

Definition fetchall (cur : cursor) : list (gmap string value) :=
  dict_factory (description cur) <$> tuples cur.

Definition fetchone (cur : cursor) : option (gmap string value) :=
  head (fetchall cur).

(** ** The methods of [TBDatabase] *)

Definition get_movies_with_state (state : value) : Conn (list (gmap string value)) :=
  if negb (py_in state TorrentState.get_states) then
    raise (Exception ("Non allowed state=" +:+ py_str state +:+ "!"))
  else
    cur ← execute (SELECT_movies_WHERE_state state);
    mret (fetchall cur).

Definition get_tv_shows_with_state (state : value) : Conn (list (gmap string value)) :=
  if negb (py_in state TorrentState.get_states) then
    raise (Exception ("Non allowed state=" +:+ py_str state +:+ "!"))
  else
    cur ← execute (SELECT_tv_shows_WHERE_state state);
    mret (fetchall cur).

Definition get_all_movies : Conn (list (gmap string value)) :=
  cur ← execute SELECT_movies; mret (fetchall cur).

Definition get_all_tv_shows : Conn (list (gmap string value)) :=
  cur ← execute SELECT_tv_shows; mret (fetchall cur).

Definition get_all_tv_shows_with_seasons : Conn (list (gmap string value)) :=
  cur ← execute SELECT_view; mret (fetchall cur).

Definition get_tv_show_with_seasons (id : value) : Conn (list (gmap string value)) :=
  cur ← execute (SELECT_view_WHERE_show_id id); mret (fetchall cur).

Definition get_movie (id : value) : Conn (option (gmap string value)) :=
  cur ← execute (SELECT_movies_WHERE_id id); mret (fetchone cur).

Definition get_tv_show (id : value) : Conn (option (gmap string value)) :=
  cur ← execute (SELECT_tv_shows_WHERE_id id); mret (fetchone cur).

Definition delete_movie (id : value) : Conn unit :=
  _ ← execute (DELETE_movies_WHERE_id id); commit.

Definition delete_tv_show (id : value) : Conn unit :=
  _ ← execute (DELETE_tv_shows_WHERE_id id); commit.

Definition delete_season (id : value) : Conn unit :=
  _ ← execute (DELETE_tv_show_seasons_WHERE_id id); commit.

Definition add_movie (name max_size_mb resolution_profile : value) : Conn unit :=
  _ ← execute (INSERT_movies name max_size_mb resolution_profile); commit.

Definition add_tv_show (name max_episode_size_mb resolution_profile : value) : Conn unit :=
  _ ← execute (INSERT_tv_shows name max_episode_size_mb resolution_profile); commit.

Definition add_tv_show_season (show_id season_number season_number_episodes : value)
    : Conn unit :=
  _ ← execute (INSERT_tv_show_seasons show_id season_number season_number_episodes); commit.

(** The loop of the three update methods: every key is checked against the
    column list; [columns_to_update] and [values] grow together, kept here as
    one list of pairs. *)
Fixpoint columns_loop (table_columns : list string) (kwargs : list (string * value))
    (columns_to_update : list (string * value)) : outcome (list (string * value)) :=
  match kwargs with
  | [] => Returns columns_to_update
  | (key, value) :: rest =>
      if negb (bool_decide (key ∈ table_columns)) then
        Raises (Exception ("The key argument must be one of the following: "
                           +:+ py_repr_list table_columns))
      else columns_loop table_columns rest (columns_to_update ++ [(key, value)])
  end.

Definition is_empty (kwargs : list (string * value)) : bool :=
  match kwargs with
  | [] => true
  | _ :: _ => false
  end.

Definition update_movie (id : value) (kwargs : list (string * value)) : Conn unit :=
  let movie_table_columns := ["name"; "max_size_mb"; "resolution_profile"; "state"; "hash"] in
  if is_empty kwargs then raise (Exception "At least one argument must be specified")
  else
    columns_to_update ← python (columns_loop movie_table_columns kwargs []);
    _ ← execute (UPDATE_movies_WHERE_id columns_to_update id);
    commit.

Definition update_tv_show (id : value) (kwargs : list (string * value)) : Conn unit :=
  let tv_shows_table_columns := ["name"; "max_episode_size_mb"; "resolution_profile"; "state"] in
  if is_empty kwargs then raise (Exception "At least one argument must be specified")
  else
    columns_to_update ← python (columns_loop tv_shows_table_columns kwargs []);
    _ ← execute (UPDATE_tv_shows_WHERE_id columns_to_update id);
    commit.

Definition update_show_season (id : value) (kwargs : list (string * value)) : Conn unit :=
  let tv_show_season_table_columns :=
    ["season_number"; "season_number_episodes"; "state"; "hash"] in
  if is_empty kwargs then raise (Exception "At least one argument must be specified")
  else
    columns_to_update ← python (columns_loop tv_show_season_table_columns kwargs []);
    _ ← execute (UPDATE_tv_show_seasons_WHERE_id columns_to_update id);
    commit.

Fixpoint season_states_loop (result : list (gmap string value)) (state_set : gset value)
    : outcome (gset value) :=
  match result with
  | [] => Returns state_set
  | row :: rest =>
      match row !! "season_state" with
      | Some v => season_states_loop rest ({[v]} ∪ state_set)
      | None => Raises (KeyError "season_state")
      end
  end.

Definition get_season_states (show_id : value) : Conn (gset value) :=
  cur ← execute (SELECT_season_state_FROM_view_WHERE_show_id show_id);
  let result := fetchall cur in
  python (season_states_loop result ∅).

(** [TBDatabase(path)] on a fresh file, after [create_schema()]. *)
Definition fresh : connection := Connection empty_database [].

(** ** Vocabulary of the properties *)

(** The dictionaries the reads return for a row. *)
Definition movie_dict (m : Movie.t) : gmap string value :=
  dict_factory movies_description (movie_tuple m).

Definition tv_show_dict (s : TvShow.t) : gmap string value :=
  dict_factory tv_shows_description (tv_show_tuple s).

Definition view_dict (s : TvShow.t) (e : Season.t) : gmap string value :=
  dict_factory view_description (view_tuple s e).

(** [kwargs.get(key)]: the value a keyword mapping gives a key. *)
Fixpoint kwargs_get (kwargs : list (string * value)) (key : string) : option value :=
  match kwargs with
  | [] => None
  | (k, v) :: rest =>
      match kwargs_get rest key with
      | Some v' => Some v'
      | None => if bool_decide (k = key) then Some v else None
      end
  end.



Definition season_with_state (state : string) (e : Season.t) : Season.t :=
  Season.Build (Season.id e) (Season.show_id e) (Season.season_number e)
               (Season.season_number_episodes e) state (Season.hash e).

(** The pair [UNIQUE(show_id, season_number)] compares, when [show_id] is
    not NULL. *)
Definition season_pair (e : Season.t) : option (Z * Z) :=
  (fun sid => (sid, Season.season_number e)) <$> Season.show_id e.

(** The PRIMARY KEY and UNIQUE constraints of the schema, as facts of a
    store.  Every method keeps them ([consistent_preserved]). *)
Record consistent (db : database) : Prop := Consistent {
  movie_ids_unique : NoDup (Movie.id <$> movies db);
  movie_names_unique : NoDup (Movie.name <$> movies db);
  tv_show_ids_unique : NoDup (TvShow.id <$> tv_shows db);
  tv_show_names_unique : NoDup (TvShow.name <$> tv_shows db);
  season_ids_unique : NoDup (Season.id <$> tv_show_seasons db);
  season_pairs_unique : NoDup (omap season_pair (tv_show_seasons db))
}.

(** The declared type of the columns an update may name, and whether the
    column may be NULL (from the CREATE TABLE statements). *)
Inductive storage_class : Type := TEXT | INTEGER.

Definition movies_classes : list (string * (storage_class * bool)) :=
  [("name", (TEXT, false)); ("max_size_mb", (INTEGER, false));
   ("resolution_profile", (TEXT, false)); ("state", (TEXT, false)); ("hash", (TEXT, true))].

Definition tv_shows_classes : list (string * (storage_class * bool)) :=
  [("name", (TEXT, false)); ("max_episode_size_mb", (INTEGER, false));
   ("resolution_profile", (TEXT, false)); ("state", (TEXT, false))].


Definition has_class (class : storage_class * bool) (v : value) : bool :=
  match v, class with
  | VText _, (TEXT, _) => true
  | VInt _, (INTEGER, _) => true
  | VNull, (_, nullable) => nullable
  | _, _ => false
  end.

Fixpoint class_of (classes : list (string * (storage_class * bool))) (column : string)
    : option (storage_class * bool) :=
  match classes with
  | [] => None
  | (c, class) :: rest => if bool_decide (c = column) then Some class else class_of rest column
  end.

(** A valid field mapping: every key is an updatable column and every value
    has the declared type of its column. *)
Definition fields_valid (classes : list (string * (storage_class * bool)))
    (kwargs : list (string * value)) : bool :=
  forallb (fun kv => match class_of classes kv.1 with
                     | Some class => has_class class kv.2
                     | None => false
                     end) kwargs.

(** The value of a column after a partial update: the one supplied for it,
    the old one when the mapping does not name the column. *)
Definition patched (kwargs : list (string * value)) (column : string) (old : value) : value :=
  default old (kwargs_get kwargs column).

Definition movie_patched (kwargs : list (string * value)) (m m' : Movie.t) : Prop :=
  Movie.id m' = Movie.id m
  /\ VText (Movie.name m') = patched kwargs "name" (VText (Movie.name m))
  /\ VInt (Movie.max_size_mb m') = patched kwargs "max_size_mb" (VInt (Movie.max_size_mb m))
  /\ VText (Movie.resolution_profile m')
     = patched kwargs "resolution_profile" (VText (Movie.resolution_profile m))
  /\ VText (Movie.state m') = patched kwargs "state" (VText (Movie.state m))
  /\ text_value (Movie.hash m') = patched kwargs "hash" (text_value (Movie.hash m)).

Definition tv_show_patched (kwargs : list (string * value)) (s s' : TvShow.t) : Prop :=
  TvShow.id s' = TvShow.id s
  /\ VText (TvShow.name s') = patched kwargs "name" (VText (TvShow.name s))
  /\ VInt (TvShow.max_episode_size_mb s')
     = patched kwargs "max_episode_size_mb" (VInt (TvShow.max_episode_size_mb s))
  /\ VText (TvShow.resolution_profile s')
     = patched kwargs "resolution_profile" (VText (TvShow.resolution_profile s))
  /\ VText (TvShow.state s') = patched kwargs "state" (VText (TvShow.state s)).


(** [AUTOINCREMENT] at work: the counter [sqlite_sequence] keeps for a table
    is not negative and no rowid of the table is above it. *)
Record sequenced (db : database) : Prop := Sequenced {
  movies_seq_nonneg : 0 <= movies_seq db;
  tv_shows_seq_nonneg : 0 <= tv_shows_seq db;
  seasons_seq_nonneg : 0 <= tv_show_seasons_seq db;
  movies_below_seq : Forall (fun m => Movie.id m <= movies_seq db) (movies db);
  tv_shows_below_seq : Forall (fun s => TvShow.id s <= tv_shows_seq db) (tv_shows db);
  seasons_below_seq :
    Forall (fun e => Season.id e <= tv_show_seasons_seq db) (tv_show_seasons db)
}.


(** A method run that leaves the store as it is and commits nothing: the
    trace is as before or longer by one executed statement. *)
Definition leaves_store {A : Type} (m : Conn A) (c : connection) : Prop :=
  store (m c).1 = store c
  /\ (trace (m c).1 = trace c \/ exists stmt, trace (m c).1 = trace c ++ [Executed stmt]).

Definition is_select (stmt : statement) : bool :=
  match stmt with
  | SELECT_movies | SELECT_movies_WHERE_state _ | SELECT_movies_WHERE_id _
  | SELECT_tv_shows | SELECT_tv_shows_WHERE_state _ | SELECT_tv_shows_WHERE_id _
  | SELECT_view | SELECT_view_WHERE_show_id _
  | SELECT_season_state_FROM_view_WHERE_show_id _ => true
  | _ => false
  end.

(** ** The database file and [create_schema]

    What [create_schema] works on: a file in which each of the three tables
    and the view is there or not.  A table that is there has its rows and its
    AUTOINCREMENT counter.  The methods above run on a file that has all four,
    which is the [database] they see. *)
Record file : Type := File {
  movies_table : option (list Movie.t * Z);
  tv_shows_table : option (list TvShow.t * Z);
  tv_show_seasons_table : option (list Season.t * Z);
  view_defined : bool
}.

Definition empty_file : file := File None None None false.

Inductive schema_statement : Type :=
| CREATE_TABLE_IF_NOT_EXISTS_movies
| CREATE_TABLE_IF_NOT_EXISTS_tv_shows
| CREATE_TABLE_IF_NOT_EXISTS_tv_show_seasons
| CREATE_VIEW_IF_NOT_EXISTS_tv_shows_with_seasons_view.

(** [IF NOT EXISTS]: what is there stays, what is missing is made empty. *)
Definition if_not_exists {A : Type} (existing : option A) (new : A) : option A :=
  match existing with
  | Some x => Some x
  | None => Some new
  end.

Definition run_schema_statement (stmt : schema_statement) (f : file) : file :=
  match stmt with
  | CREATE_TABLE_IF_NOT_EXISTS_movies =>
      File (if_not_exists (movies_table f) ([], 0)) (tv_shows_table f)
           (tv_show_seasons_table f) (view_defined f)
  | CREATE_TABLE_IF_NOT_EXISTS_tv_shows =>
      File (movies_table f) (if_not_exists (tv_shows_table f) ([], 0))
           (tv_show_seasons_table f) (view_defined f)
  | CREATE_TABLE_IF_NOT_EXISTS_tv_show_seasons =>
      File (movies_table f) (tv_shows_table f)
           (if_not_exists (tv_show_seasons_table f) ([], 0)) (view_defined f)
  | CREATE_VIEW_IF_NOT_EXISTS_tv_shows_with_seasons_view =>
      File (movies_table f) (tv_shows_table f) (tv_show_seasons_table f) true
  end.

(** The four [cur.execute] of [create_schema], in order; the commit that
    follows makes them durable and changes nothing the connection sees. *)
Definition create_schema (f : file) : file :=
  foldl (fun f stmt => run_schema_statement stmt f) f
        [CREATE_TABLE_IF_NOT_EXISTS_movies;
         CREATE_TABLE_IF_NOT_EXISTS_tv_shows;
         CREATE_TABLE_IF_NOT_EXISTS_tv_show_seasons;
         CREATE_VIEW_IF_NOT_EXISTS_tv_shows_with_seasons_view].

(** The store of a file that has the whole schema. *)
Definition schema_store (f : file) : option database :=
  match movies_table f, tv_shows_table f, tv_show_seasons_table f, view_defined f with
  | Some (ms, mq), Some (ss, sq), Some (es, eq), true => Some (Database ms mq ss sq es eq)
  | _, _, _, _ => None
  end.

(** A store with one movie, one show and two seasons of it. *)
Definition sample_database : database :=
  Database [Movie.Build 1 "Foo" 700 "1080p" "SEARCHING" None] 1
           [TvShow.Build 1 "Bar" 300 "720p" "SEARCHING"] 1
           [Season.Build 1 (Some 1) 1 10 "SEARCHING" None;
            Season.Build 2 (Some 1) 2 8 "SEARCHING" None] 2.

Definition sample : connection := Connection sample_database [].

(** ** The monad, unfolded *)

Lemma conn_bind_run {A B : Type} (m : Conn A) (k : A -> Conn B) (c : connection) :
  (m ≫= k) c =
  match m c with
  | (c', Returns a) => k a c'
  | (c', Raises e) => (c', Raises e)
  | (c', Unsupported) => (c', Unsupported)
  end.
Proof. reflexivity. Qed.

Lemma outcome_bind_returns {A B : Type} (m : outcome A) (k : A -> outcome B) (b : B) :
  m ≫= k = Returns b -> exists a, m = Returns a /\ k a = Returns b.
Proof. destruct m as [a| |]; simpl; intros H; try discriminate. by exists a. Qed.

Ltac run_conn :=
  unfold mbind, conn_mbind, conn_bind, mret, conn_mret, conn_ret, raise, python,
    execute, commit; simpl.

(** ** The key check of the update methods *)

Lemma columns_loop_spec (table_columns : list string) (kwargs acc : list (string * value)) :
  columns_loop table_columns kwargs acc =
  if settable table_columns kwargs then Returns (acc ++ kwargs)
  else Raises (Exception ("The key argument must be one of the following: "
                          +:+ py_repr_list table_columns)).
Proof.
  revert acc. induction kwargs as [|[key v] rest IH]; intros acc; simpl.
  - by rewrite app_nil_r.
  - destruct (bool_decide (key ∈ table_columns)); simpl; [|done].
    rewrite IH. by rewrite <- app_assoc.
Qed.

Lemma settable_unknown (table_columns : list string) (kwargs : list (string * value))
    (key : string) (v : value) :
  (key, v) ∈ kwargs -> key ∉ table_columns -> settable table_columns kwargs = false.
Proof.
  intros Hin Hout. apply not_true_is_false. intros Hall.
  unfold settable in Hall. rewrite forallb_forall in Hall.
  apply list_elem_of_In in Hin. specialize (Hall _ Hin). simpl in Hall.
  apply bool_decide_eq_true in Hall. contradiction.
Qed.

(** ** Invalid update requests (C1) *)

Lemma update_movie_unknown_key (id : value) (kwargs : list (string * value))
    (c : connection) (key : string) (v : value) :
  (key, v) ∈ kwargs -> key ∉ movies_settable ->
  update_movie id kwargs c =
  (c, Raises (Exception ("The key argument must be one of the following: "
                         +:+ py_repr_list movies_settable))).
Proof.
  intros Hin Hout. unfold update_movie.
  destruct kwargs as [|kv rest]; [by apply elem_of_nil in Hin|].
  cbn [is_empty]. rewrite conn_bind_run. unfold python.
  rewrite columns_loop_spec.
  fold movies_settable. by rewrite (settable_unknown _ _ _ _ Hin Hout).
Qed.

Lemma update_tv_show_unknown_key (id : value) (kwargs : list (string * value))
    (c : connection) (key : string) (v : value) :
  (key, v) ∈ kwargs -> key ∉ tv_shows_settable ->
  update_tv_show id kwargs c =
  (c, Raises (Exception ("The key argument must be one of the following: "
                         +:+ py_repr_list tv_shows_settable))).
Proof.
  intros Hin Hout. unfold update_tv_show.
  destruct kwargs as [|kv rest]; [by apply elem_of_nil in Hin|].
  cbn [is_empty]. rewrite conn_bind_run. unfold python.
  rewrite columns_loop_spec.
  fold tv_shows_settable. by rewrite (settable_unknown _ _ _ _ Hin Hout).
Qed.

Lemma update_show_season_unknown_key (id : value) (kwargs : list (string * value))
    (c : connection) (key : string) (v : value) :
  (key, v) ∈ kwargs -> key ∉ tv_show_seasons_settable ->
  update_show_season id kwargs c =
  (c, Raises (Exception ("The key argument must be one of the following: "
                         +:+ py_repr_list tv_show_seasons_settable))).
Proof.
  intros Hin Hout. unfold update_show_season.
  destruct kwargs as [|kv rest]; [by apply elem_of_nil in Hin|].
  cbn [is_empty]. rewrite conn_bind_run. unfold python.
  rewrite columns_loop_spec.
  fold tv_show_seasons_settable. by rewrite (settable_unknown _ _ _ _ Hin Hout).
Qed.

(** C1, as the spec has it, fails: the "unknown column" error of
    [update_movie(1, bogus_field=1)] lists the allowed columns and does
    not name the offending key. *)
Lemma unknown_column_error_omits_key :
  update_movie (VInt 1) [("bogus_field", VInt 1)] sample =
    (sample,
     Raises (Exception "The key argument must be one of the following: ['name', 'max_size_mb', 'resolution_profile', 'state', 'hash']"))
  /\ mentions "The key argument must be one of the following: ['name', 'max_size_mb', 'resolution_profile', 'state', 'hash']"
              "bogus_field" = false.
Proof. split; reflexivity. Qed.

(** C1, amended: an update call with an empty mapping raises the "empty
    update" error, and one with a key outside the entity's column list raises
    the "unknown column" error, whose text is the allowed list alone; either
    way the connection is as before: no statement was executed, nothing was
    committed, the store is the same. *)
Theorem update_rejects_invalid_request (id : value) (kwargs : list (string * value))
    (c : connection) (key : string) (v : value) :
  (kwargs = [] ->
     update_movie id kwargs c =
       (c, Raises (Exception "At least one argument must be specified"))
     /\ update_tv_show id kwargs c =
       (c, Raises (Exception "At least one argument must be specified"))
     /\ update_show_season id kwargs c =
       (c, Raises (Exception "At least one argument must be specified")))
  /\ ((key, v) ∈ kwargs -> key ∉ ["name"; "max_size_mb"; "resolution_profile"; "state"; "hash"] ->
      update_movie id kwargs c =
        (c, Raises (Exception "The key argument must be one of the following: ['name', 'max_size_mb', 'resolution_profile', 'state', 'hash']")))
  /\ ((key, v) ∈ kwargs -> key ∉ ["name"; "max_episode_size_mb"; "resolution_profile"; "state"] ->
      update_tv_show id kwargs c =
        (c, Raises (Exception "The key argument must be one of the following: ['name', 'max_episode_size_mb', 'resolution_profile', 'state']")))
  /\ ((key, v) ∈ kwargs -> key ∉ ["season_number"; "season_number_episodes"; "state"; "hash"] ->
      update_show_season id kwargs c =
        (c, Raises (Exception "The key argument must be one of the following: ['season_number', 'season_number_episodes', 'state', 'hash']"))).
Proof.
  split; [|split; [|split]].
  - by intros ->.
  - intros Hin Hout. by rewrite (update_movie_unknown_key id kwargs c key v Hin Hout).
  - intros Hin Hout. by rewrite (update_tv_show_unknown_key id kwargs c key v Hin Hout).
  - intros Hin Hout. by rewrite (update_show_season_unknown_key id kwargs c key v Hin Hout).
Qed.

Lemma update_rejects_invalid_request_witness :
  update_movie (VInt 1) [("state", VText "SEEDING"); ("bogus_field", VInt 1)] sample =
    (sample,
     Raises (Exception "The key argument must be one of the following: ['name', 'max_size_mb', 'resolution_profile', 'state', 'hash']")).
Proof.
  apply (update_rejects_invalid_request (VInt 1)
           [("state", VText "SEEDING"); ("bogus_field", VInt 1)] sample
           "bogus_field" (VInt 1)).
  - apply list_elem_of_In. simpl. tauto.
  - intros H. apply list_elem_of_In in H. simpl in H.
    repeat (destruct H as [H|H]; [discriminate H|]). exact H.
Defined.

(** ** Lists of rows *)


Lemma NoDup_omap_eq {A B : Type} (g : A -> option B) (l : list A) (x y : A) (b : B) :
  NoDup (omap g l) -> x ∈ l -> y ∈ l -> g x = Some b -> g y = Some b -> x = y.
Proof.
  induction l as [|a l IH]; intros Hnd Hx Hy Hgx Hgy.
  - by apply elem_of_nil in Hx.
  - simpl in Hnd.
    assert (Hmem : forall z, z ∈ l -> g z = Some b -> b ∈ omap g l).
    { intros z Hz Hgz. apply list_elem_of_omap. by exists z. }
    apply elem_of_cons in Hx as [->|Hx]; apply elem_of_cons in Hy as [->|Hy].
    + done.
    + rewrite Hgx in Hnd. apply NoDup_cons in Hnd as [Hnot _].
      exfalso. apply Hnot. by apply (Hmem y).
    + rewrite Hgy in Hnd. apply NoDup_cons in Hnd as [Hnot _].
      exfalso. apply Hnot. by apply (Hmem x).
    + apply IH; try done. destruct (g a); [by apply NoDup_cons in Hnd as [_ ?]|done].
Qed.

Lemma filter_bool_decide {A : Type} (P : A -> Prop) `{Hdec : !forall x, Decision (P x)}
    (l : list A) :
  List.filter (fun x => bool_decide (P x)) l = filter P l.
Proof.
  induction l as [|a l IH]; [done|]. simpl. rewrite IH.
  rewrite filter_cons. by destruct (decide (P a)) as [Hp|Hp];
    [rewrite bool_decide_eq_true_2|rewrite bool_decide_eq_false_2].
Qed.

Lemma update_where_map {R : Type} (matches : R -> bool) (change : R -> outcome R)
    (f : R -> R) (rows : list R) :
  (forall r, r ∈ rows -> matches r = true -> change r = Returns (f r)) ->
  update_where matches change rows =
  Returns ((fun r => if matches r then f r else r) <$> rows).
Proof.
  induction rows as [|r rows IH]; intros H; [done|].
  simpl. rewrite IH by (intros r' Hr'; apply H; by right).
  destruct (matches r) eqn:Hm; [|done].
  rewrite (H r) by (done || left). done.
Qed.

Lemma update_where_inv {R : Type} (matches : R -> bool) (change : R -> outcome R)
    (rows rows' : list R) :
  update_where matches change rows = Returns rows' ->
  Forall2 (fun r r' => if matches r then change r = Returns r' else r' = r) rows rows'.
Proof.
  revert rows'. induction rows as [|r rows IH]; intros rows' H; simpl in H.
  - injection H as <-. constructor.
  - destruct (matches r) eqn:Hm.
    + destruct (change r) as [r1| |] eqn:Hc; simpl in H; try discriminate.
      destruct (update_where matches change rows) as [rest| |]; simpl in H; try discriminate.
      injection H as <-. constructor; [by rewrite Hm|by apply IH].
    + destruct (update_where matches change rows) as [rest| |]; simpl in H; try discriminate.
      injection H as <-. constructor; [by rewrite Hm|by apply IH].
Qed.

(** ** UNIQUE on a consistent store *)



Lemma season_pair_free (rows : list Season.t) (e : Season.t) :
  NoDup (omap season_pair rows) -> e ∈ rows ->
  season_pair_taken rows (Season.id e) (Season.show_id e) (Season.season_number e) = false.
Proof.
  intros Hnd He. apply not_true_is_false. intros H.
  unfold season_pair_taken in H. destruct (Season.show_id e) as [sid|] eqn:Hsid; [|done].
  apply existsb_exists in H as (e2 & Hin & Hb).
  apply andb_true_iff in Hb as [Hb Hnum]. apply andb_true_iff in Hb as [Hid Hshow].
  apply negb_true_iff, bool_decide_eq_false in Hid.
  apply bool_decide_eq_true in Hnum. apply bool_decide_eq_true in Hshow.
  apply list_elem_of_In in Hin. apply Hid.
  rewrite (NoDup_omap_eq season_pair rows e2 e (sid, Season.season_number e) Hnd Hin He); [done| |].
  - unfold season_pair. by rewrite Hshow, Hnum.
  - unfold season_pair. by rewrite Hsid.
Qed.

(** ** Updates of [state] (C2) *)



Lemma set_season_state (state : string) (e : Season.t) :
  set_season [("state", VText state)] e = Returns (season_with_state state e).
Proof. destruct e as [i [sid|] n k st [h|]]; reflexivity. Qed.



Lemma sample_consistent : consistent sample_database.
Proof.
  split; simpl; refine (bool_decide_unpack _ _); vm_compute; exact I.
Qed.


(** ** Fresh rowids *)






(** ** Uniqueness on insert (C3) *)







(** ** State-filtered reads (C4) *)

Lemma fetchall_fmap {R : Type} (description : list string) (tuple : R -> list value)
    (rows : list R) :
  fetchall (Cursor description (tuple <$> rows)) =
  (fun r => dict_factory description (tuple r)) <$> rows.
Proof. unfold fetchall. simpl. by rewrite <- list_fmap_compose. Qed.

(** C4: a state outside [TorrentState.get_states()] makes both
    state-filtered reads raise "Non allowed state=...!" with the connection
    untouched (no statement executed); a listed state makes them execute
    their one SELECT and return the dictionaries of exactly the rows whose
    state is the argument, in table order, the store unchanged. *)
Theorem state_filtered_reads (c : connection) (state : string) :
  (state ∉ TorrentState.get_states ->
   get_movies_with_state (VText state) c =
     (c, Raises (Exception ("Non allowed state=" +:+ state +:+ "!")))
   /\ get_tv_shows_with_state (VText state) c =
     (c, Raises (Exception ("Non allowed state=" +:+ state +:+ "!"))))
  /\ (state ∈ TorrentState.get_states ->
      get_movies_with_state (VText state) c =
        (Connection (store c) (trace c ++ [Executed (SELECT_movies_WHERE_state (VText state))]),
         Returns (movie_dict <$> filter (fun m => Movie.state m = state) (movies (store c))))
      /\ get_tv_shows_with_state (VText state) c =
        (Connection (store c) (trace c ++ [Executed (SELECT_tv_shows_WHERE_state (VText state))]),
         Returns (tv_show_dict <$> filter (fun s => TvShow.state s = state) (tv_shows (store c))))).
Proof.
  split; intros H.
  - unfold get_movies_with_state, get_tv_shows_with_state, py_in.
    by rewrite (bool_decide_eq_false_2 _ H).
  - unfold get_movies_with_state, get_tv_shows_with_state, py_in.
    rewrite (bool_decide_eq_true_2 _ H). run_conn.
    rewrite !fetchall_fmap.
    rewrite (filter_bool_decide (fun m => Movie.state m = state)).
    rewrite (filter_bool_decide (fun s => TvShow.state s = state)).
    done.
Qed.

Lemma state_filtered_reads_witness :
  (get_movies_with_state (VText "NOT_A_STATE") sample =
     (sample, Raises (Exception "Non allowed state=NOT_A_STATE!")))
  /\ (get_tv_shows_with_state (VText "SEARCHING") sample).2 =
     Returns [tv_show_dict (TvShow.Build 1 "Bar" 300 "720p" "SEARCHING")].
Proof.
  split.
  - apply (proj1 (state_filtered_reads sample "NOT_A_STATE")).
    intros H. apply list_elem_of_In in H. simpl in H.
    repeat (destruct H as [H|H]; [discriminate H|]). exact H.
  - rewrite (proj2 (proj2 (state_filtered_reads sample "SEARCHING")
                            ltac:(apply list_elem_of_In; simpl; tauto))).
    reflexivity.
Defined.

(** ** Partial updates (C5) *)

Lemma assigned_patched (set : list (string * value)) (column : string) (old : value) :
  assigned set column old = patched set column old.
Proof.
  unfold patched. revert old. induction set as [|[c v] rest IH]; intros old; simpl; [done|].
  rewrite IH. destruct (kwargs_get rest column); simpl; [done|].
  by destruct (bool_decide (c = column)).
Qed.

Lemma kwargs_get_elem (kwargs : list (string * value)) (key : string) (v : value) :
  kwargs_get kwargs key = Some v -> (key, v) ∈ kwargs.
Proof.
  induction kwargs as [|[k w] rest IH]; simpl; [done|].
  destruct (kwargs_get rest key) as [v'|].
  - intros [= ->]. right. by apply IH.
  - destruct (bool_decide (k = key)) eqn:Hk; [|done].
    apply bool_decide_eq_true in Hk as ->. intros [= ->]. by left.
Qed.

Lemma patched_class (classes : list (string * (storage_class * bool)))
    (kwargs : list (string * value)) (column : string) (class : storage_class * bool)
    (old : value) :
  fields_valid classes kwargs = true -> class_of classes column = Some class ->
  has_class class old = true -> has_class class (patched kwargs column old) = true.
Proof.
  intros Hv Hc Hold. unfold patched.
  destruct (kwargs_get kwargs column) as [v|] eqn:Hg; simpl; [|done].
  apply kwargs_get_elem, list_elem_of_In in Hg.
  unfold fields_valid in Hv. rewrite forallb_forall in Hv.
  specialize (Hv _ Hg). simpl in Hv. by rewrite Hc in Hv.
Qed.

Lemma has_class_text (v : value) :
  has_class (TEXT, false) v = true -> exists s, v = VText s.
Proof. destruct v; try done. by eexists. Qed.

Lemma has_class_integer (v : value) :
  has_class (INTEGER, false) v = true -> exists n, v = VInt n.
Proof. destruct v; try done. by eexists. Qed.

Lemma has_class_text_null (v : value) :
  has_class (TEXT, true) v = true -> exists o, v = text_value o.
Proof.
  destruct v as [|n|s]; try done; intros _; [by exists None|by exists (Some s)].
Qed.

Lemma text_affinity_value (o : option string) : text_affinity (text_value o) = o.
Proof. by destruct o. Qed.

Lemma set_movie_patched (kwargs : list (string * value)) (m m' : Movie.t) :
  fields_valid movies_classes kwargs = true ->
  set_movie kwargs m = Returns m' -> movie_patched kwargs m m'.
Proof.
  intros Hv. unfold set_movie. rewrite !assigned_patched.
  destruct (has_class_text _ (patched_class _ _ "name" _ (VText (Movie.name m))
                                Hv eq_refl eq_refl)) as [x1 H1].
  destruct (has_class_integer _ (patched_class _ _ "max_size_mb" _ (VInt (Movie.max_size_mb m))
                                   Hv eq_refl eq_refl)) as [x2 H2].
  destruct (has_class_text _ (patched_class _ _ "resolution_profile" _
                                (VText (Movie.resolution_profile m))
                                Hv eq_refl eq_refl)) as [x3 H3].
  destruct (has_class_text _ (patched_class _ _ "state" _ (VText (Movie.state m))
                                Hv eq_refl eq_refl)) as [x4 H4].
  destruct (has_class_text_null _ (patched_class _ _ "hash" _ (text_value (Movie.hash m))
                                     Hv eq_refl ltac:(by destruct (Movie.hash m))))
    as [x5 H5].
  unfold movie_patched, store_movie. rewrite H1, H2, H3, H4, H5.
  rewrite text_affinity_value. simpl. by intros [= <-].
Qed.

Lemma set_tv_show_patched (kwargs : list (string * value)) (s s' : TvShow.t) :
  fields_valid tv_shows_classes kwargs = true ->
  set_tv_show kwargs s = Returns s' -> tv_show_patched kwargs s s'.
Proof.
  intros Hv. unfold set_tv_show. rewrite !assigned_patched.
  destruct (has_class_text _ (patched_class _ _ "name" _ (VText (TvShow.name s))
                                Hv eq_refl eq_refl)) as [x1 H1].
  destruct (has_class_integer _ (patched_class _ _ "max_episode_size_mb" _
                                   (VInt (TvShow.max_episode_size_mb s))
                                   Hv eq_refl eq_refl)) as [x2 H2].
  destruct (has_class_text _ (patched_class _ _ "resolution_profile" _
                                (VText (TvShow.resolution_profile s))
                                Hv eq_refl eq_refl)) as [x3 H3].
  destruct (has_class_text _ (patched_class _ _ "state" _ (VText (TvShow.state s))
                                Hv eq_refl eq_refl)) as [x4 H4].
  unfold tv_show_patched. rewrite H1, H2, H3, H4. simpl. by intros [= <-].
Qed.


Lemma unique_movie_returns (rows : list Movie.t) (m m' : Movie.t) :
  unique_movie rows m = Returns m' -> m' = m.
Proof. unfold unique_movie. destruct (movie_name_taken _ _ _); congruence. Qed.

Lemma unique_tv_show_returns (rows : list TvShow.t) (s s' : TvShow.t) :
  unique_tv_show rows s = Returns s' -> s' = s.
Proof. unfold unique_tv_show. destruct (tv_show_name_taken _ _ _); congruence. Qed.

Lemma unique_season_returns (rows : list Season.t) (e e' : Season.t) :
  unique_season rows e = Returns e' -> e' = e.
Proof. unfold unique_season. destruct (season_pair_taken _ _ _ _); congruence. Qed.

Lemma update_movie_returns (id : Z) (kwargs : list (string * value)) (c c' : connection) :
  update_movie (VInt id) kwargs c = (c', Returns tt) ->
  exists rows,
    update_where (fun m => integer_matches (Some id) (Movie.id m))
                 (fun m => set_movie kwargs m ≫= unique_movie (movies (store c)))
                 (movies (store c)) = Returns rows
    /\ store c' = Database rows (movies_seq (store c))
                           (tv_shows (store c)) (tv_shows_seq (store c))
                           (tv_show_seasons (store c)) (tv_show_seasons_seq (store c))
    /\ trace c' = trace c ++ [Executed (UPDATE_movies_WHERE_id kwargs (VInt id)); Committed].
Proof.
  unfold update_movie. destruct kwargs as [|kv rest]; [done|]. cbn [is_empty].
  rewrite conn_bind_run. unfold python. rewrite columns_loop_spec. fold movies_settable.
  destruct (settable movies_settable (kv :: rest)) eqn:Hs; [|done].
  rewrite app_nil_l, conn_bind_run. unfold execute, run_statement. rewrite Hs.
  unfold update_movies. simpl.
  destruct (update_where _ _ _) as [rows| |]; simpl; try done.
  intros [= <-]. exists rows. simpl. by rewrite <- app_assoc.
Qed.

Lemma update_tv_show_returns (id : Z) (kwargs : list (string * value)) (c c' : connection) :
  update_tv_show (VInt id) kwargs c = (c', Returns tt) ->
  exists rows,
    update_where (fun s => integer_matches (Some id) (TvShow.id s))
                 (fun s => set_tv_show kwargs s ≫= unique_tv_show (tv_shows (store c)))
                 (tv_shows (store c)) = Returns rows
    /\ store c' = Database (movies (store c)) (movies_seq (store c))
                           rows (tv_shows_seq (store c))
                           (tv_show_seasons (store c)) (tv_show_seasons_seq (store c))
    /\ trace c' = trace c ++ [Executed (UPDATE_tv_shows_WHERE_id kwargs (VInt id)); Committed].
Proof.
  unfold update_tv_show. destruct kwargs as [|kv rest]; [done|]. cbn [is_empty].
  rewrite conn_bind_run. unfold python. rewrite columns_loop_spec. fold tv_shows_settable.
  destruct (settable tv_shows_settable (kv :: rest)) eqn:Hs; [|done].
  rewrite app_nil_l, conn_bind_run. unfold execute, run_statement. rewrite Hs.
  unfold update_tv_shows. simpl.
  destruct (update_where _ _ _) as [rows| |]; simpl; try done.
  intros [= <-]. exists rows. simpl. by rewrite <- app_assoc.
Qed.




(** ** The join view *)

Lemma elem_of_List_filter {A : Type} (f : A -> bool) (l : list A) (x : A) :
  x ∈ List.filter f l <-> x ∈ l /\ f x = true.
Proof. rewrite !list_elem_of_In. apply filter_In. Qed.

Lemma elem_of_view (db : database) (s : TvShow.t) (e : Season.t) :
  (s, e) ∈ tv_shows_with_seasons_view db <->
  s ∈ tv_shows db /\ e ∈ tv_show_seasons db /\ Season.show_id e = Some (TvShow.id s).
Proof.
  unfold tv_shows_with_seasons_view. rewrite list_elem_of_bind. split.
  - intros (s' & Hin & Hs'). apply list_elem_of_bind in Hin as (e' & Hin & He').
    apply list_elem_of_singleton in Hin as [= -> ->].
    apply elem_of_List_filter in He' as [He' Hj].
    by apply bool_decide_eq_true in Hj.
  - intros (Hs & He & Hj). exists s. split; [|done].
    apply list_elem_of_bind. exists e. split; [by apply list_elem_of_singleton|].
    apply elem_of_List_filter. split; [done|]. by apply bool_decide_eq_true.
Qed.



Lemma view_dict_season_state (s : TvShow.t) (e : Season.t) :
  view_dict s e !! "season_state" = Some (VText (Season.state e)).
Proof. reflexivity. Qed.




(** ** Shows with their seasons (C7) *)



(** ** The states of a show's seasons (C10) *)

Lemma season_states_loop_spec (states : list value) (state_set : gset value) :
  season_states_loop ((fun v => dict_factory ["season_state"] [v]) <$> states) state_set
  = Returns (list_to_set states ∪ state_set).
Proof.
  revert state_set. induction states as [|v states IH]; intros state_set; simpl.
  - by rewrite (left_id_L ∅ (∪)).
  - unfold dict_factory at 1. simpl. rewrite lookup_insert_eq. rewrite IH.
    rewrite ?list_to_set_cons. f_equal.
    by rewrite (comm_L (∪) {[v]} (list_to_set states)), (assoc_L (∪)).
Qed.


(** The example of the spec: seasons in the states SEEDING, SEEDING and
    COMPLETED give the set of the two. *)
Example season_states_example :
  let db := Database [] 0 [TvShow.Build 1 "Bar" 300 "720p" "SEEDING"] 1
                     [Season.Build 1 (Some 1) 1 10 "SEEDING" None;
                      Season.Build 2 (Some 1) 2 8 "SEEDING" None;
                      Season.Build 3 (Some 1) 3 8 "COMPLETED" None] 3 in
  (get_season_states (VInt 1) (Connection db [])).2
  = Returns ({[VText "SEEDING"; VText "COMPLETED"]} : gset value).
Proof. vm_compute. reflexivity. Qed.

(** ** Deleting a show (C9) *)


(** The seasons of a deleted show stay behind, out of reach of the view. *)
Example delete_tv_show_orphans :
  let c := (delete_tv_show (VInt 1) sample).1 in
  tv_shows (store c) = []
  /\ tv_show_seasons (store c) = tv_show_seasons sample_database
  /\ (get_all_tv_shows_with_seasons c).2 = Returns [].
Proof. repeat split; reflexivity. Qed.

(** ** Seasons without a show (C8) *)



(** ** Reading a new row back (C6) *)


Lemma get_movie_run (id : Z) (c : connection) :
  get_movie (VInt id) c =
  (Connection (store c) (trace c ++ [Executed (SELECT_movies_WHERE_id (VInt id))]),
   Returns (movie_dict <$>
            head (List.filter (fun m => bool_decide (Movie.id m = id)) (movies (store c))))).
Proof.
  unfold get_movie. run_conn. unfold fetchone. rewrite fetchall_fmap.
  by destruct (List.filter _ _).
Qed.

Lemma get_tv_show_run (id : Z) (c : connection) :
  get_tv_show (VInt id) c =
  (Connection (store c) (trace c ++ [Executed (SELECT_tv_shows_WHERE_id (VInt id))]),
   Returns (tv_show_dict <$>
            head (List.filter (fun s => bool_decide (TvShow.id s = id)) (tv_shows (store c))))).
Proof.
  unfold get_tv_show. run_conn. unfold fetchone. rewrite fetchall_fmap.
  by destruct (List.filter _ _).
Qed.





(** The scenario of the spec: a show, two seasons, both read back through
    the join in state SEARCHING. *)
Example show_with_two_seasons :
  let c1 := (add_tv_show (VText "Foo") (VInt 300) (VText "720p") fresh).1 in
  let c2 := (add_tv_show_season (VInt 1) (VInt 1) (VInt 10) c1).1 in
  let c3 := (add_tv_show_season (VInt 1) (VInt 2) (VInt 8) c2).1 in
  exists r1 r2,
    (get_tv_show_with_seasons (VInt 1) c3).2 = Returns [r1; r2]
    /\ r1 !! "season_number" = Some (VInt 1) /\ r2 !! "season_number" = Some (VInt 2)
    /\ r1 !! "season_state" = Some (VText "SEARCHING")
    /\ r2 !! "season_state" = Some (VText "SEARCHING").
Proof. cbv zeta. do 2 eexists. repeat split; reflexivity. Qed.

(** ** The constraints are kept *)












Lemma store_movie_id (id : Z) (a b c d e : value) (m : Movie.t) :
  store_movie id a b c d e = Returns m -> Movie.id m = id.
Proof.
  unfold store_movie. intros H.
  repeat (apply outcome_bind_returns in H as (? & _ & H)). by injection H as <-.
Qed.

Lemma store_tv_show_id (id : Z) (a b c d : value) (s : TvShow.t) :
  store_tv_show id a b c d = Returns s -> TvShow.id s = id.
Proof.
  unfold store_tv_show. intros H.
  repeat (apply outcome_bind_returns in H as (? & _ & H)). by injection H as <-.
Qed.

Lemma store_season_id (id : Z) (a b c d e : value) (x : Season.t) :
  store_season id a b c d e = Returns x -> Season.id x = id.
Proof.
  unfold store_season. intros H.
  repeat (apply outcome_bind_returns in H as (? & _ & H)). by injection H as <-.
Qed.














Lemma fresh_consistent : consistent (store fresh).
Proof. split; simpl; apply NoDup_nil_2. Qed.



(** ** Deleting what is not there *)



(** ** [dict_factory] *)





(** With a column name used twice, the later column wins: the dictionary
    keeps one value per name. *)
Example dict_factory_duplicate_name :
  dict_factory ["id"; "name"; "id"] [VInt 1; VText "Foo"; VInt 2]
  = {[ "id" := VInt 2; "name" := VText "Foo" ]}.
Proof. vm_compute. reflexivity. Qed.

(** ** Reads *)

Lemma run_select_store (stmt : statement) (db db' : database) (cur : cursor) :
  is_select stmt = true -> run_statement stmt db = Returns (db', cur) -> db' = db.
Proof.
  destruct stmt; try done; simpl; intros _ H;
    try (by injection H as <- _);
    by apply outcome_bind_returns in H as (key & _ & [= <- _]).
Qed.

Lemma read_leaves_store {A : Type} (stmt : statement) (k : cursor -> outcome A)
    (c : connection) :
  is_select stmt = true ->
  leaves_store (cur ← execute stmt; python (k cur)) c.
Proof.
  intros Hsel. unfold leaves_store. rewrite conn_bind_run. unfold execute, python.
  destruct (run_statement stmt (store c)) as [[db cur]| |] eqn:Hrun; simpl.
  - apply run_select_store in Hrun as ->; [|done]. split; [done|]. right. by eexists.
  - split; [done|]. right. by eexists.
  - split; [done|]. right. by eexists.
Qed.

(** No read writes: the nine reading methods leave the store as it is,
    whatever their argument and whether they return or raise, and none
    commits; each executes at most its one SELECT. *)
Theorem reads_do_not_write (c : connection) (v : value) :
  leaves_store (get_movies_with_state v) c
  /\ leaves_store (get_tv_shows_with_state v) c
  /\ leaves_store get_all_movies c
  /\ leaves_store get_all_tv_shows c
  /\ leaves_store get_all_tv_shows_with_seasons c
  /\ leaves_store (get_tv_show_with_seasons v) c
  /\ leaves_store (get_movie v) c
  /\ leaves_store (get_tv_show v) c
  /\ leaves_store (get_season_states v) c.
Proof.
  repeat split_and; try (by apply (read_leaves_store _ (fun cur => Returns _)));
    try (by apply (read_leaves_store _ (fun cur => season_states_loop (fetchall cur) ∅))).
  - unfold get_movies_with_state. destruct (negb _); [by split; [|left]|].
    by apply (read_leaves_store _ (fun cur => Returns _)).
  - unfold get_tv_shows_with_state. destruct (negb _); [by split; [|left]|].
    by apply (read_leaves_store _ (fun cur => Returns _)).
Qed.

Lemma List_filter_none {A : Type} (g : A -> bool) (l : list A) :
  (forall x, x ∈ l -> g x = false) -> List.filter g l = [].
Proof.
  induction l as [|a l IH]; intros H; [done|]. simpl.
  rewrite (H a) by by left. apply IH. intros x Hx. apply H. by right.
Qed.

Lemma List_filter_unique {A : Type} (f : A -> Z) (l : list A) (x : A) :
  NoDup (f <$> l) -> x ∈ l -> List.filter (fun y => bool_decide (f y = f x)) l = [x].
Proof.
  induction l as [|a l IH]; intros Hnd Hx; [by apply elem_of_nil in Hx|].
  rewrite fmap_cons in Hnd. apply NoDup_cons in Hnd as [Hnot Hnd]. simpl.
  apply elem_of_cons in Hx as [->|Hx].
  - rewrite bool_decide_eq_true_2 by done. f_equal. apply List_filter_none.
    intros y Hy. apply bool_decide_eq_false. intros Heq. apply Hnot. rewrite <- Heq.
    by apply list_elem_of_fmap_2.
  - rewrite bool_decide_eq_false_2; [by apply IH|].
    intros Heq. apply Hnot. rewrite Heq. by apply list_elem_of_fmap_2.
Qed.



(** ** Deleting, then reading *)





(** ** Updates, run *)

Lemma update_movie_run (key : option Z) (kwargs : list (string * value)) (c : connection) :
  kwargs <> [] -> settable movies_settable kwargs = true ->
  let stmt := UPDATE_movies_WHERE_id kwargs (integer_value key) in
  update_movie (integer_value key) kwargs c =
  match update_where (fun m => integer_matches key (Movie.id m))
                     (fun m => set_movie kwargs m ≫= unique_movie (movies (store c)))
                     (movies (store c)) with
  | Returns rows =>
      (Connection (Database rows (movies_seq (store c))
                            (tv_shows (store c)) (tv_shows_seq (store c))
                            (tv_show_seasons (store c)) (tv_show_seasons_seq (store c)))
                  (trace c ++ [Executed stmt; Committed]), Returns tt)
  | Raises e => (Connection (store c) (trace c ++ [Executed stmt]), Raises e)
  | Unsupported => (Connection (store c) (trace c ++ [Executed stmt]), Unsupported)
  end.
Proof.
  intros Hne Hs. cbv zeta. unfold update_movie.
  destruct kwargs as [|kv rest]; [done|]. cbn [is_empty].
  rewrite conn_bind_run. unfold python. rewrite columns_loop_spec. fold movies_settable.
  rewrite Hs, app_nil_l, conn_bind_run. unfold execute, run_statement. rewrite Hs.
  unfold update_movies.
  destruct key as [k|]; simpl; destruct (update_where _ _ _) as [rows| |]; simpl;
    unfold commit; simpl; by rewrite <- ?app_assoc.
Qed.

Lemma update_tv_show_run (key : option Z) (kwargs : list (string * value)) (c : connection) :
  kwargs <> [] -> settable tv_shows_settable kwargs = true ->
  let stmt := UPDATE_tv_shows_WHERE_id kwargs (integer_value key) in
  update_tv_show (integer_value key) kwargs c =
  match update_where (fun s => integer_matches key (TvShow.id s))
                     (fun s => set_tv_show kwargs s ≫= unique_tv_show (tv_shows (store c)))
                     (tv_shows (store c)) with
  | Returns rows =>
      (Connection (Database (movies (store c)) (movies_seq (store c))
                            rows (tv_shows_seq (store c))
                            (tv_show_seasons (store c)) (tv_show_seasons_seq (store c)))
                  (trace c ++ [Executed stmt; Committed]), Returns tt)
  | Raises e => (Connection (store c) (trace c ++ [Executed stmt]), Raises e)
  | Unsupported => (Connection (store c) (trace c ++ [Executed stmt]), Unsupported)
  end.
Proof.
  intros Hne Hs. cbv zeta. unfold update_tv_show.
  destruct kwargs as [|kv rest]; [done|]. cbn [is_empty].
  rewrite conn_bind_run. unfold python. rewrite columns_loop_spec. fold tv_shows_settable.
  rewrite Hs, app_nil_l, conn_bind_run. unfold execute, run_statement. rewrite Hs.
  unfold update_tv_shows.
  destruct key as [k|]; simpl; destruct (update_where _ _ _) as [rows| |]; simpl;
    unfold commit; simpl; by rewrite <- ?app_assoc.
Qed.

Lemma update_show_season_run (key : option Z) (kwargs : list (string * value))
    (c : connection) :
  kwargs <> [] -> settable tv_show_seasons_settable kwargs = true ->
  let stmt := UPDATE_tv_show_seasons_WHERE_id kwargs (integer_value key) in
  update_show_season (integer_value key) kwargs c =
  match update_where (fun e => integer_matches key (Season.id e))
                     (fun e => set_season kwargs e ≫= unique_season (tv_show_seasons (store c)))
                     (tv_show_seasons (store c)) with
  | Returns rows =>
      (Connection (Database (movies (store c)) (movies_seq (store c))
                            (tv_shows (store c)) (tv_shows_seq (store c))
                            rows (tv_show_seasons_seq (store c)))
                  (trace c ++ [Executed stmt; Committed]), Returns tt)
  | Raises e => (Connection (store c) (trace c ++ [Executed stmt]), Raises e)
  | Unsupported => (Connection (store c) (trace c ++ [Executed stmt]), Unsupported)
  end.
Proof.
  intros Hne Hs. cbv zeta. unfold update_show_season.
  destruct kwargs as [|kv rest]; [done|]. cbn [is_empty].
  rewrite conn_bind_run. unfold python. rewrite columns_loop_spec.
  fold tv_show_seasons_settable.
  rewrite Hs, app_nil_l, conn_bind_run. unfold execute, run_statement. rewrite Hs.
  unfold update_seasons.
  destruct key as [k|]; simpl; destruct (update_where _ _ _) as [rows| |]; simpl;
    unfold commit; simpl; by rewrite <- ?app_assoc.
Qed.



(** ** Updating a row that is not there *)



(** ** Updates that break a constraint *)

Lemma update_where_raises {R : Type} (matches : R -> bool) (change : R -> outcome R)
    (rows : list R) (e : exn) (r : R) :
  (forall x, x ∈ rows -> matches x = true ->
             change x = Raises e \/ exists x', change x = Returns x') ->
  r ∈ rows -> matches r = true -> change r = Raises e ->
  update_where matches change rows = Raises e.
Proof.
  induction rows as [|a rows IH]; intros Hall Hr Hm Hc; [by apply elem_of_nil in Hr|].
  simpl. destruct (matches a) eqn:Hma.
  - destruct (Hall a ltac:(by left) Hma) as [Ha|[a' Ha]]; rewrite Ha; simpl; [done|].
    apply elem_of_cons in Hr as [->|Hr]; [congruence|].
    rewrite IH; try done. intros x Hx. apply Hall. by right.
  - apply elem_of_cons in Hr as [->|Hr]; [congruence|].
    rewrite IH; try done. intros x Hx. apply Hall. by right.
Qed.

Lemma movie_name_taken_by (rows : list Movie.t) (rowid : Z) (m2 : Movie.t) :
  m2 ∈ rows -> Movie.id m2 <> rowid -> movie_name_taken rows rowid (Movie.name m2) = true.
Proof.
  intros Hin Hne. apply existsb_exists. exists m2. split; [by apply list_elem_of_In|].
  apply andb_true_iff. split; [|by apply bool_decide_eq_true].
  by apply negb_true_iff, bool_decide_eq_false.
Qed.

Lemma tv_show_name_taken_by (rows : list TvShow.t) (rowid : Z) (s2 : TvShow.t) :
  s2 ∈ rows -> TvShow.id s2 <> rowid ->
  tv_show_name_taken rows rowid (TvShow.name s2) = true.
Proof.
  intros Hin Hne. apply existsb_exists. exists s2. split; [by apply list_elem_of_In|].
  apply andb_true_iff. split; [|by apply bool_decide_eq_true].
  by apply negb_true_iff, bool_decide_eq_false.
Qed.

Lemma season_pair_taken_by (rows : list Season.t) (rowid sid : Z) (e2 : Season.t) :
  e2 ∈ rows -> Season.id e2 <> rowid -> Season.show_id e2 = Some sid ->
  season_pair_taken rows rowid (Some sid) (Season.season_number e2) = true.
Proof.
  intros Hin Hne Hsid. apply existsb_exists. exists e2. split; [by apply list_elem_of_In|].
  rewrite !andb_true_iff. split; [split|].
  - by apply negb_true_iff, bool_decide_eq_false.
  - by apply bool_decide_eq_true.
  - by apply bool_decide_eq_true.
Qed.

(** Renaming a movie or a show to the name of another row, or renumbering a
    season to a number another season of the same show has, raises
    [sqlite3.IntegrityError]; the UPDATE is rolled back, nothing is committed
    and the store is as it was. *)
Theorem update_rejects_duplicates (c : connection) (m m2 : Movie.t) (s s2 : TvShow.t)
    (e e2 : Season.t) (sid : Z) :
  (m ∈ movies (store c) -> m2 ∈ movies (store c) -> Movie.id m2 <> Movie.id m ->
   update_movie (VInt (Movie.id m)) [("name", VText (Movie.name m2))] c =
   (Connection (store c)
      (trace c ++ [Executed (UPDATE_movies_WHERE_id [("name", VText (Movie.name m2))]
                                                    (VInt (Movie.id m)))]),
    Raises (IntegrityError (UniqueFailed "movies" ["name"]))))
  /\ (s ∈ tv_shows (store c) -> s2 ∈ tv_shows (store c) -> TvShow.id s2 <> TvShow.id s ->
      update_tv_show (VInt (TvShow.id s)) [("name", VText (TvShow.name s2))] c =
      (Connection (store c)
         (trace c ++ [Executed (UPDATE_tv_shows_WHERE_id [("name", VText (TvShow.name s2))]
                                                         (VInt (TvShow.id s)))]),
       Raises (IntegrityError (UniqueFailed "tv_shows" ["name"]))))
  /\ (e ∈ tv_show_seasons (store c) -> e2 ∈ tv_show_seasons (store c) ->
      Season.id e2 <> Season.id e ->
      Season.show_id e = Some sid -> Season.show_id e2 = Some sid ->
      update_show_season (VInt (Season.id e))
                         [("season_number", VInt (Season.season_number e2))] c =
      (Connection (store c)
         (trace c ++ [Executed (UPDATE_tv_show_seasons_WHERE_id
                                  [("season_number", VInt (Season.season_number e2))]
                                  (VInt (Season.id e)))]),
       Raises (IntegrityError (UniqueFailed "tv_show_seasons" ["show_id"; "season_number"])))).
Proof.
  split; [|split].
  - intros Hm Hm2 Hne.
    rewrite (update_movie_run (Some (Movie.id m))) by done. cbv zeta.
    rewrite (update_where_raises _ _ _
               (IntegrityError (UniqueFailed "movies" ["name"])) m); try done.
    + intros x Hx Hmx. simpl. unfold unique_movie.
      destruct (movie_name_taken _ _ _); [by left|right; by eexists].
    + simpl. by apply bool_decide_eq_true.
    + simpl. unfold unique_movie. simpl. by rewrite movie_name_taken_by.
  - intros Hs Hs2 Hne.
    rewrite (update_tv_show_run (Some (TvShow.id s))) by done. cbv zeta.
    rewrite (update_where_raises _ _ _
               (IntegrityError (UniqueFailed "tv_shows" ["name"])) s); try done.
    + intros x Hx Hmx. simpl. unfold unique_tv_show.
      destruct (tv_show_name_taken _ _ _); [by left|right; by eexists].
    + simpl. by apply bool_decide_eq_true.
    + simpl. unfold unique_tv_show. simpl. by rewrite tv_show_name_taken_by.
  - intros He He2 Hne Hsid Hsid2.
    rewrite (update_show_season_run (Some (Season.id e))) by done. cbv zeta.
    rewrite (update_where_raises _ _ _
               (IntegrityError (UniqueFailed "tv_show_seasons" ["show_id"; "season_number"]))
               e); try done.
    + intros x Hx Hmx. unfold set_season, store_season. simpl.
      destruct (Season.show_id x); simpl; unfold unique_season;
        destruct (season_pair_taken _ _ _ _); (by left) || (right; by eexists).
    + simpl. by apply bool_decide_eq_true.
    + unfold set_season, store_season. simpl. rewrite Hsid. simpl.
      unfold unique_season. cbn [Season.id Season.show_id Season.season_number].
      by rewrite season_pair_taken_by.
Qed.

Lemma update_rejects_duplicates_witness :
  (update_show_season (VInt 1) [("season_number", VInt 2)] sample).2
  = Raises (IntegrityError (UniqueFailed "tv_show_seasons" ["show_id"; "season_number"])).
Proof.
  pose proof (proj2 (proj2 (update_rejects_duplicates sample
    (Movie.Build 1 "Foo" 700 "1080p" "SEARCHING" None)
    (Movie.Build 1 "Foo" 700 "1080p" "SEARCHING" None)
    (TvShow.Build 1 "Bar" 300 "720p" "SEARCHING")
    (TvShow.Build 1 "Bar" 300 "720p" "SEARCHING")
    (Season.Build 1 (Some 1) 1 10 "SEARCHING" None)
    (Season.Build 2 (Some 1) 2 8 "SEARCHING" None) 1))) as H.
  cbn [Season.id Season.season_number] in H. rewrite H; try reflexivity; try discriminate.
  - apply list_elem_of_In. simpl. tauto.
  - apply list_elem_of_In. simpl. tauto.
Defined.

(** ** NULL where the schema says NOT NULL *)


Lemma set_movie_null (column : string) (m : Movie.t) :
  column ∈ ["name"; "max_size_mb"; "resolution_profile"; "state"] ->
  set_movie [(column, VNull)] m = Raises (IntegrityError (NotNullFailed "movies" column)).
Proof.
  intros H. apply list_elem_of_In in H. simpl in H.
  destruct H as [<-|[<-|[<-|[<-|[]]]]]; reflexivity.
Qed.

Lemma set_tv_show_null (column : string) (s : TvShow.t) :
  column ∈ ["name"; "max_episode_size_mb"; "resolution_profile"; "state"] ->
  set_tv_show [(column, VNull)] s = Raises (IntegrityError (NotNullFailed "tv_shows" column)).
Proof.
  intros H. apply list_elem_of_In in H. simpl in H.
  destruct H as [<-|[<-|[<-|[<-|[]]]]]; reflexivity.
Qed.

Lemma set_season_null (column : string) (e : Season.t) :
  column ∈ ["season_number"; "season_number_episodes"; "state"] ->
  set_season [(column, VNull)] e
  = Raises (IntegrityError (NotNullFailed "tv_show_seasons" column)).
Proof.
  intros H. apply list_elem_of_In in H. simpl in H.
  destruct H as [<-|[<-|[<-|[]]]]; destruct e as [i [sid|] n k st h]; reflexivity.
Qed.

Lemma settable_one (columns allowed : list string) (column : string) (v : value) :
  column ∈ columns -> columns ⊆ allowed -> settable allowed [(column, v)] = true.
Proof.
  intros Hin Hsub. unfold settable. simpl. rewrite andb_true_r.
  apply bool_decide_eq_true. by apply Hsub.
Qed.

(** Setting a NOT NULL column of an existing row to [None] makes the update
    methods raise [sqlite3.IntegrityError] naming the column; the store is as
    it was and nothing is committed. *)
Theorem update_rejects_null (c : connection) (column : string) (m : Movie.t) (s : TvShow.t)
    (e : Season.t) :
  (m ∈ movies (store c) ->
   column ∈ ["name"; "max_size_mb"; "resolution_profile"; "state"] ->
   update_movie (VInt (Movie.id m)) [(column, VNull)] c =
   (Connection (store c)
      (trace c ++ [Executed (UPDATE_movies_WHERE_id [(column, VNull)] (VInt (Movie.id m)))]),
    Raises (IntegrityError (NotNullFailed "movies" column))))
  /\ (s ∈ tv_shows (store c) ->
      column ∈ ["name"; "max_episode_size_mb"; "resolution_profile"; "state"] ->
      update_tv_show (VInt (TvShow.id s)) [(column, VNull)] c =
      (Connection (store c)
         (trace c ++ [Executed (UPDATE_tv_shows_WHERE_id [(column, VNull)]
                                                         (VInt (TvShow.id s)))]),
       Raises (IntegrityError (NotNullFailed "tv_shows" column))))
  /\ (e ∈ tv_show_seasons (store c) ->
      column ∈ ["season_number"; "season_number_episodes"; "state"] ->
      update_show_season (VInt (Season.id e)) [(column, VNull)] c =
      (Connection (store c)
         (trace c ++ [Executed (UPDATE_tv_show_seasons_WHERE_id [(column, VNull)]
                                                                (VInt (Season.id e)))]),
       Raises (IntegrityError (NotNullFailed "tv_show_seasons" column)))).
Proof.
  split; [|split].
  - intros Hm Hcol.
    rewrite (update_movie_run (Some (Movie.id m))); [|done|].
    + cbv zeta.
      rewrite (update_where_raises _ _ _ (IntegrityError (NotNullFailed "movies" column)) m);
        try done.
      * intros x _ _. left. by rewrite set_movie_null.
      * simpl. by apply bool_decide_eq_true.
      * by rewrite set_movie_null.
    + apply (settable_one _ _ _ _ Hcol). intros x Hx.
      apply list_elem_of_In in Hx. apply list_elem_of_In. simpl in *. tauto.
  - intros Hs Hcol.
    rewrite (update_tv_show_run (Some (TvShow.id s))); [|done|].
    + cbv zeta.
      rewrite (update_where_raises _ _ _ (IntegrityError (NotNullFailed "tv_shows" column)) s);
        try done.
      * intros x _ _. left. by rewrite set_tv_show_null.
      * simpl. by apply bool_decide_eq_true.
      * by rewrite set_tv_show_null.
    + apply (settable_one _ _ _ _ Hcol). intros x Hx.
      apply list_elem_of_In in Hx. apply list_elem_of_In. simpl in *. tauto.
  - intros He Hcol.
    rewrite (update_show_season_run (Some (Season.id e))); [|done|].
    + cbv zeta.
      rewrite (update_where_raises _ _ _
                 (IntegrityError (NotNullFailed "tv_show_seasons" column)) e); try done.
      * intros x _ _. left. by rewrite set_season_null.
      * simpl. by apply bool_decide_eq_true.
      * by rewrite set_season_null.
    + apply (settable_one _ _ _ _ Hcol). intros x Hx.
      apply list_elem_of_In in Hx. apply list_elem_of_In. simpl in *. tauto.
Qed.

Lemma update_rejects_null_witness :
  (update_movie (VInt 1) [("state", VNull)] sample).2
  = Raises (IntegrityError (NotNullFailed "movies" "state")).
Proof.
  pose proof (proj1 (update_rejects_null sample "state"
    (Movie.Build 1 "Foo" 700 "1080p" "SEARCHING" None)
    (TvShow.Build 1 "Bar" 300 "720p" "SEARCHING")
    (Season.Build 1 (Some 1) 1 10 "SEARCHING" None))) as H.
  cbn [Movie.id] in H. rewrite H; [reflexivity| |];
    apply list_elem_of_In; simpl; tauto.
Defined.

(** ** What an update never touches *)

Lemma update_where_fmap {R B : Type} (f : R -> B) (matches : R -> bool)
    (change : R -> outcome R) (rows rows' : list R) :
  (forall r r', change r = Returns r' -> f r' = f r) ->
  update_where matches change rows = Returns rows' -> f <$> rows' = f <$> rows.
Proof.
  intros Hf H. apply update_where_inv in H.
  induction H as [|r r' rows rows' Hr _ IH]; [done|].
  rewrite !fmap_cons, IH. f_equal.
  destruct (matches r); [by apply Hf|by rewrite Hr].
Qed.




(** ** Rowids *)

Lemma max_rowid_le (ids : list Z) (bound : Z) :
  0 <= bound -> Forall (fun i => i <= bound) ids -> max_rowid ids <= bound.
Proof.
  intros H0 H. unfold max_rowid. induction H as [|i ids Hi _ IH]; simpl; lia.
Qed.

Lemma next_rowid_sequenced {R : Type} (f : R -> Z) (rows : list R) (seq : Z) :
  0 <= seq -> Forall (fun r => f r <= seq) rows -> next_rowid seq (f <$> rows) = seq + 1.
Proof.
  intros H0 H. unfold next_rowid.
  assert (max_rowid (f <$> rows) <= seq); [|lia].
  apply max_rowid_le; [done|]. apply Forall_fmap. exact H.
Qed.









Lemma sample_sequenced : sequenced sample_database.
Proof.
  split; simpl; try lia; repeat constructor; simpl; lia.
Qed.


Lemma add_returns (stmt : statement) (c c' : connection) :
  (_ ← execute stmt; commit) c = (c', Returns tt) ->
  exists cur, run_statement stmt (store c) = Returns (store c', cur).
Proof.
  rewrite conn_bind_run. unfold execute.
  destruct (run_statement stmt (store c)) as [[db cur]| |]; simpl; try done.
  intros [= <-]. by exists cur.
Qed.

(** On a store whose counters are in order, a row added by [add_movie],
    [add_tv_show] or [add_tv_show_season] is appended with the id one above
    the table's counter, which becomes the new counter: the id is above every
    id the table holds, and above that of any row deleted before. *)
Theorem added_row_gets_next_rowid (c c' : connection) (a b d : value) :
  sequenced (store c) ->
  (add_movie a b d c = (c', Returns tt) ->
   exists m, movies (store c') = movies (store c) ++ [m]
             /\ Movie.id m = movies_seq (store c) + 1
             /\ movies_seq (store c') = movies_seq (store c) + 1)
  /\ (add_tv_show a b d c = (c', Returns tt) ->
      exists s, tv_shows (store c') = tv_shows (store c) ++ [s]
                /\ TvShow.id s = tv_shows_seq (store c) + 1
                /\ tv_shows_seq (store c') = tv_shows_seq (store c) + 1)
  /\ (add_tv_show_season a b d c = (c', Returns tt) ->
      exists e, tv_show_seasons (store c') = tv_show_seasons (store c) ++ [e]
                /\ Season.id e = tv_show_seasons_seq (store c) + 1
                /\ tv_show_seasons_seq (store c') = tv_show_seasons_seq (store c) + 1).
Proof.
  intros [N1 N2 N3 H1 H2 H3]. split; [|split]; intros (cur & H)%add_returns; simpl in H;
    apply outcome_bind_returns in H as (db & Hins & [= <- _]).
  - unfold insert_movie in Hins. apply outcome_bind_returns in Hins as (m & Hm & Hins).
    apply store_movie_id in Hm.
    apply outcome_bind_returns in Hins as (m' & ->%unique_movie_returns & [= <-]).
    exists m. simpl. rewrite Hm. by rewrite next_rowid_sequenced.
  - unfold insert_tv_show in Hins. apply outcome_bind_returns in Hins as (m & Hm & Hins).
    apply store_tv_show_id in Hm.
    apply outcome_bind_returns in Hins as (m' & ->%unique_tv_show_returns & [= <-]).
    exists m. simpl. rewrite Hm. by rewrite next_rowid_sequenced.
  - unfold insert_season in Hins. apply outcome_bind_returns in Hins as (m & Hm & Hins).
    apply store_season_id in Hm.
    apply outcome_bind_returns in Hins as (m' & ->%unique_season_returns & [= <-]).
    exists m. simpl. rewrite Hm. by rewrite next_rowid_sequenced.
Qed.

Lemma added_row_gets_next_rowid_witness :
  exists e, tv_show_seasons (store (add_tv_show_season (VInt 1) (VInt 3) (VInt 6) sample).1)
            = tv_show_seasons (store sample) ++ [e]
            /\ Season.id e = tv_show_seasons_seq (store sample) + 1
            /\ tv_show_seasons_seq (store (add_tv_show_season (VInt 1) (VInt 3) (VInt 6) sample).1)
               = tv_show_seasons_seq (store sample) + 1.
Proof.
  exact (proj2 (proj2 (added_row_gets_next_rowid sample
                         (add_tv_show_season (VInt 1) (VInt 3) (VInt 6) sample).1
                         (VInt 1) (VInt 3) (VInt 6) sample_sequenced)) eq_refl).
Defined.

(** After the newest row is deleted, its id is not handed out again. *)
Example deleted_rowid_is_not_reused :
  let c1 := (delete_movie (VInt 1) sample).1 in
  let c2 := (add_movie (VText "Baz") (VInt 700) (VText "720p") c1).1 in
  movies (store c2) = [Movie.Build 2 "Baz" 700 "720p" "SEARCHING" None].
Proof. reflexivity. Qed.

(** ** Updating, then reading *)

Lemma update_where_changed {R : Type} (matches : R -> bool) (change : R -> outcome R)
    (rows rows' : list R) (r : R) :
  update_where matches change rows = Returns rows' ->
  r ∈ rows -> matches r = true ->
  exists r', r' ∈ rows' /\ change r = Returns r'.
Proof.
  intros H Hr Hm. apply update_where_inv in H.
  apply list_elem_of_lookup in Hr as [i Hi].
  destruct (Forall2_lookup_l _ _ _ _ _ H Hi) as (r' & Hi' & Hp).
  rewrite Hm in Hp. exists r'. split; [|done]. apply list_elem_of_lookup. by exists i.
Qed.

(** On a store that satisfies its constraints, after an update of an
    existing movie or show with a valid mapping has returned, reading the same
    id returns the patched row: the named columns with the supplied values,
    the others as before. *)
Theorem updated_row_is_read_back (c c' : connection) (m : Movie.t) (s : TvShow.t)
    (kwargs : list (string * value)) :
  consistent (store c) ->
  (m ∈ movies (store c) -> fields_valid movies_classes kwargs = true ->
   update_movie (VInt (Movie.id m)) kwargs c = (c', Returns tt) ->
   exists m', movie_patched kwargs m m'
              /\ (get_movie (VInt (Movie.id m)) c').2 = Returns (Some (movie_dict m')))
  /\ (s ∈ tv_shows (store c) -> fields_valid tv_shows_classes kwargs = true ->
      update_tv_show (VInt (TvShow.id s)) kwargs c = (c', Returns tt) ->
      exists s', tv_show_patched kwargs s s'
                 /\ (get_tv_show (VInt (TvShow.id s)) c').2 = Returns (Some (tv_show_dict s'))).
Proof.
  intros Hc. split.
  - intros Hm Hv (rows & Hrows & Hstore & _)%update_movie_returns.
    destruct (update_where_changed _ _ _ _ m Hrows Hm) as (m' & Hm' & Hch).
    { simpl. by apply bool_decide_eq_true. }
    apply outcome_bind_returns in Hch as (a & Hset & ->%unique_movie_returns).
    pose proof (store_movie_id _ _ _ _ _ _ _ Hset) as Hid.
    exists a. split; [by apply set_movie_patched|].
    rewrite get_movie_run. cbn [snd]. rewrite Hstore. cbn [movies]. rewrite <- Hid.
    rewrite (List_filter_unique Movie.id rows a); [done| |done].
    apply (update_where_fmap Movie.id) in Hrows.
    + rewrite Hrows. apply (movie_ids_unique _ Hc).
    + intros r r' (x & Hx & ->%unique_movie_returns)%outcome_bind_returns.
      by apply store_movie_id in Hx.
  - intros Hs Hv (rows & Hrows & Hstore & _)%update_tv_show_returns.
    destruct (update_where_changed _ _ _ _ s Hrows Hs) as (s' & Hs' & Hch).
    { simpl. by apply bool_decide_eq_true. }
    apply outcome_bind_returns in Hch as (a & Hset & ->%unique_tv_show_returns).
    pose proof (store_tv_show_id _ _ _ _ _ _ Hset) as Hid.
    exists a. split; [by apply set_tv_show_patched|].
    rewrite get_tv_show_run. cbn [snd]. rewrite Hstore. cbn [tv_shows]. rewrite <- Hid.
    rewrite (List_filter_unique TvShow.id rows a); [done| |done].
    apply (update_where_fmap TvShow.id) in Hrows.
    + rewrite Hrows. apply (tv_show_ids_unique _ Hc).
    + intros r r' (x & Hx & ->%unique_tv_show_returns)%outcome_bind_returns.
      by apply store_tv_show_id in Hx.
Qed.

Lemma updated_row_is_read_back_witness :
  let kwargs := [("hash", VText "abc"); ("state", VText "DOWNLOADING")] in
  let m := Movie.Build 1 "Foo" 700 "1080p" "SEARCHING" None in
  exists m', movie_patched kwargs m m'
             /\ (get_movie (VInt 1) (update_movie (VInt 1) kwargs sample).1).2
                = Returns (Some (movie_dict m')).
Proof.
  cbv zeta.
  apply (proj1 (updated_row_is_read_back sample
    (update_movie (VInt 1) [("hash", VText "abc"); ("state", VText "DOWNLOADING")] sample).1
    (Movie.Build 1 "Foo" 700 "1080p" "SEARCHING" None)
    (TvShow.Build 1 "Bar" 300 "720p" "SEARCHING")
    [("hash", VText "abc"); ("state", VText "DOWNLOADING")] sample_consistent));
    [apply list_elem_of_In; simpl; tauto|reflexivity|reflexivity].
Defined.

(** ** Listing after a write *)







(** ** [create_schema] *)

(** [create_schema] gives a file the whole schema and is safe to repeat:
    a second call changes nothing, a file that already has the schema is left
    as it is, a table that was there keeps its rows and its counter, and on an
    empty file the result is the empty store. *)
Theorem create_schema_is_idempotent (f : file) :
  create_schema (create_schema f) = create_schema f
  /\ (exists db, schema_store (create_schema f) = Some db)
  /\ (forall db, schema_store f = Some db ->
        create_schema f = f /\ schema_store (create_schema f) = Some db)
  /\ (forall t, movies_table f = Some t -> movies_table (create_schema f) = Some t)
  /\ (forall t, tv_shows_table f = Some t -> tv_shows_table (create_schema f) = Some t)
  /\ (forall t, tv_show_seasons_table f = Some t ->
        tv_show_seasons_table (create_schema f) = Some t)
  /\ schema_store (create_schema empty_file) = Some (store fresh).
Proof.
  destruct f as [[[ms mq]|] [[ss sq]|] [[es eq]|] v]; unfold create_schema; simpl;
    repeat split_and; try done; try (by eexists);
    try (intros db H; destruct v; [by injection H as <-|done]);
    try (intros t [= <-]; done).
Qed.

Lemma create_schema_is_idempotent_witness :
  create_schema (File (Some ([Movie.Build 1 "Foo" 700 "1080p" "SEARCHING" None], 1))
                      None None false)
  = File (Some ([Movie.Build 1 "Foo" 700 "1080p" "SEARCHING" None], 1))
         (Some ([], 0)) (Some ([], 0)) true
  /\ movies_table
       (create_schema (File (Some ([Movie.Build 1 "Foo" 700 "1080p" "SEARCHING" None], 1))
                            None None false))
     = Some ([Movie.Build 1 "Foo" 700 "1080p" "SEARCHING" None], 1).
Proof.
  split; [reflexivity|].
  apply (proj1 (proj2 (proj2 (proj2 (create_schema_is_idempotent
    (File (Some ([Movie.Build 1 "Foo" 700 "1080p" "SEARCHING" None], 1)) None None false)))))).
  reflexivity.
Defined.

(** ** Deletes *)

Lemma List_filter_idem {A : Type} (g : A -> bool) (l : list A) :
  List.filter g (List.filter g l) = List.filter g l.
Proof.
  induction l as [|a l IH]; [done|]. simpl. destruct (g a) eqn:Hg; [|done].
  simpl. by rewrite Hg, IH.
Qed.

(** [delete_movie] and [delete_season] take out of their own table the rows
    with the given id and no other, leave the two other tables and the
    counters as they are, and deleting the same id a second time changes
    nothing more. *)
Theorem deletes_are_local (c : connection) (id : Z) :
  (let c' := (delete_movie (VInt id) c).1 in
   movies (store c') = filter (fun m => Movie.id m <> id) (movies (store c))
   /\ tv_shows (store c') = tv_shows (store c)
   /\ tv_show_seasons (store c') = tv_show_seasons (store c)
   /\ movies_seq (store c') = movies_seq (store c)
   /\ store (delete_movie (VInt id) c').1 = store c')
  /\ (let c' := (delete_season (VInt id) c).1 in
      tv_show_seasons (store c') = filter (fun e => Season.id e <> id) (tv_show_seasons (store c))
      /\ movies (store c') = movies (store c)
      /\ tv_shows (store c') = tv_shows (store c)
      /\ tv_show_seasons_seq (store c') = tv_show_seasons_seq (store c)
      /\ store (delete_season (VInt id) c').1 = store c').
Proof.
  destruct c as [db t]. cbv zeta. unfold delete_movie, delete_season. run_conn.
  unfold delete_movies, delete_seasons, delete_where. simpl.
  split; repeat split_and; try done.
  - rewrite <- (filter_bool_decide (fun m => Movie.id m <> id)).
    apply filter_ext. intros m. by rewrite bool_decide_not.
  - by rewrite List_filter_idem.
  - rewrite <- (filter_bool_decide (fun e => Season.id e <> id)).
    apply filter_ext. intros e. by rewrite bool_decide_not.
  - by rewrite List_filter_idem.
Qed.

(** ** A season's new state, seen from its show *)

Lemma get_season_states_run (show_id : Z) (c : connection) :
  (get_season_states (VInt show_id) c).2 =
  Returns (list_to_set
             ((fun se => VText (Season.state se.2))
                <$> List.filter (fun se => bool_decide (TvShow.id se.1 = show_id))
                                (tv_shows_with_seasons_view (store c)))).
Proof.
  destruct c as [db t]. unfold get_season_states. run_conn.
  unfold fetchall. simpl. rewrite <- list_fmap_compose.
  rewrite (list_fmap_compose (fun se : TvShow.t * Season.t => VText (Season.state se.2))
                             (fun v => dict_factory ["season_state"] [v])).
  rewrite season_states_loop_spec. by rewrite (right_id_L ∅ (∪)).
Qed.

(** On a store that satisfies its constraints, once [update_show_season] has
    set the state of a season of an existing show, [get_season_states] of that
    show contains the new state. *)
Theorem season_state_update_is_seen (c : connection) (s : TvShow.t) (e : Season.t)
    (state : string) :
  consistent (store c) ->
  s ∈ tv_shows (store c) -> e ∈ tv_show_seasons (store c) ->
  Season.show_id e = Some (TvShow.id s) ->
  let c' := (update_show_season (VInt (Season.id e)) [("state", VText state)] c).1 in
  exists states : gset value,
    (get_season_states (VInt (TvShow.id s)) c').2 = Returns states
    /\ VText state ∈ states.
Proof.
  intros Hc Hs He Hj. cbv zeta. rewrite get_season_states_run. eexists. split; [done|].
  rewrite (update_show_season_run (Some (Season.id e))) by done. cbv zeta.
  rewrite (update_where_map _ _ (season_with_state state)).
  - cbn [fst store]. apply elem_of_list_to_set, list_elem_of_fmap.
    exists (s, season_with_state state e). split; [done|].
    apply elem_of_List_filter. split; [|by apply bool_decide_eq_true].
    apply elem_of_view. cbn [tv_shows tv_show_seasons]. split; [done|]. split; [|done].
    apply list_elem_of_fmap. exists e. split; [|done].
    simpl. by rewrite bool_decide_eq_true_2.
  - intros x Hx _. rewrite set_season_state. simpl. unfold unique_season. simpl.
    by rewrite (season_pair_free _ x (season_pairs_unique _ Hc) Hx).
Qed.

Lemma season_state_update_is_seen_witness :
  exists states : gset value,
    (get_season_states (VInt 1)
       (update_show_season (VInt 2) [("state", VText "SEEDING")] sample).1).2
    = Returns states
    /\ VText "SEEDING" ∈ states.
Proof.
  apply (season_state_update_is_seen sample
           (TvShow.Build 1 "Bar" 300 "720p" "SEARCHING")
           (Season.Build 2 (Some 1) 2 8 "SEARCHING" None) "SEEDING" sample_consistent);
    [apply list_elem_of_In; simpl; tauto|apply list_elem_of_In; simpl; tauto|reflexivity].
Defined.
